(** * PyExpLabSys.common.sockets: UDP data sockets

    A shallow embedding of [src/PyExpLabSys/common/sockets.py]: the module
    level registry [DATA], the request handler [DataUDPHandler] and the two
    publishers [DataSocket] and [DateDataSocket].

    Conventions of the embedding.
    - A Python [str] is a [string], a sequence of bytes; the text functions
      of the Python library that the module calls ([str.count], [str.split],
      [str.join], [in], [list.count], [json.dumps]) are written out below.
      Two things are left to the library, as the interface [PyJson]: what
      [json.dumps] does with a [str] that is not ASCII, and the order in
      which a dict is iterated.
    - The numbers held in points and timeouts are duck typed in the source
      (ints and floats both occur: the default point of [DataSocket] is
      [(47, 47)]).  The handler only subtracts, compares and prints them, so
      the embedding is stated over the interface [PyNumber]; the instance
      [number] further down is used to run the definitions.
    - A raised exception is the [Raise] case of [result].  The constructors
      mutate [DATA] before they may raise, so they return the state they
      leave behind together with their outcome.
    - [time.time()] is the argument [now] of [_old_data]; a request reads
      the clock once per staleness test, which is the argument [time] of
      the handler ([time i] is the i-th reading of the request). *)

From Stdlib Require Import Ascii String QArith Qcanon Sorted.
From stdpp Require Import base numbers gmap strings list pretty.

(** ** Text functions of the Python library *)

(** [s.count(c)] for a pattern [c] of one character. *)
Fixpoint str_count (c : ascii) (s : string) : nat :=
  match s with
  | EmptyString => 0
  | String a rest => (if decide (a = c) then 1 else 0) + str_count c rest
  end.

(** [s.split(sep)] for a separator of one character. *)
Fixpoint str_split (sep : ascii) (s : string) : list string :=
  match s with
  | EmptyString => [EmptyString]
  | String a rest =>
      if decide (a = sep) then EmptyString :: str_split sep rest
      else match str_split sep rest with
           | piece :: pieces => String a piece :: pieces
           | [] => [String a EmptyString]
           end
  end.

(** [sep.join(l)]. *)
Fixpoint str_join (sep : string) (l : list string) : string :=
  match l with
  | [] => EmptyString
  | s :: rest =>
      match rest with
      | [] => s
      | _ :: _ => s +:+ sep +:+ str_join sep rest
      end
  end.

(** [c in s] for a pattern [c] of one character. *)
Fixpoint str_contains (c : ascii) (s : string) : bool :=
  match s with
  | EmptyString => false
  | String a rest => if decide (a = c) then true else str_contains c rest
  end.

(** [l.count(x)] on a list of strings. *)
Fixpoint list_count (x : string) (l : list string) : nat :=
  match l with
  | [] => 0
  | y :: rest => (if decide (y = x) then 1 else 0) + list_count x rest
  end.

Definition str_of_char (c : ascii) : string := String c EmptyString.

(** *** json.dumps on strings

    [encode_basestring_ascii] of the json module on an ASCII [str]: the
    string between double quotes, with the quote, the backslash and every
    character outside [' '..'~'] escaped.  A [str] with a byte above 127 is
    another matter: Python 2 decodes it as UTF-8 first, and raises
    [UnicodeDecodeError] or escapes the code points it finds.  The handler
    therefore goes through [dumps] below, which applies these functions to
    ASCII strings only ([is_ascii]). *)

Fixpoint is_ascii (s : string) : bool :=
  match s with
  | EmptyString => true
  | String c rest => (N_of_ascii c <? 128)%N && is_ascii rest
  end.

Definition dquote : ascii := "034"%char.
Definition backslash : ascii := "092"%char.

Definition hex_digit (n : N) : ascii :=
  if (n <? 10)%N then ascii_of_N (48 + n) else ascii_of_N (87 + n).

Definition escape_char (c : ascii) : string :=
  let n := N_of_ascii c in
  if decide (c = dquote) then String backslash (str_of_char dquote)
  else if decide (c = backslash) then String backslash (str_of_char backslash)
  else if (n =? 10)%N then String backslash "n"
  else if (n =? 13)%N then String backslash "r"
  else if (n =? 9)%N then String backslash "t"
  else if (n =? 12)%N then String backslash "f"
  else if (n =? 8)%N then String backslash "b"
  else if ((32 <=? n) && (n <=? 126))%N then str_of_char c
  else String backslash
         ("u00" +:+ String (hex_digit (n / 16)) (str_of_char (hex_digit (n mod 16)))).

Fixpoint escape_chars (s : string) : string :=
  match s with
  | EmptyString => EmptyString
  | String c rest => escape_char c +:+ escape_chars rest
  end.

Definition encode_basestring_ascii (s : string) : string :=
  String dquote (escape_chars s +:+ str_of_char dquote).

(** ** Numbers *)

(** What the module asks of the numbers it is given: [a - b], [a > b],
    ['{}'.format(a)] and [json.dumps(a)]. *)
Class PyNumber (num : Type) := {
  num_sub : num → num → num;
  num_gt : num → num → bool;
  num_format : num → string;
  num_json : num → string;
}.

(** Numbers on which [-] and [>] are those of the rationals they stand
    for: Python ints, and floats as long as no rounding takes place. *)
Class ExactNumber (num : Type) `{PyNumber num} := {
  num_value : num → Qc;
  num_gt_value a b : num_gt a b = true ↔ (num_value b < num_value a)%Qc;
  num_sub_value a b : num_value (num_sub a b) = (num_value a - num_value b)%Qc;
}.

(** ** Exceptions *)

Inductive exn :=
  | ValueError (message : string)
  | KeyError
  | NotImplementedError
  | SocketError.

Inductive result (A : Type) :=
  | Ok (a : A)
  | Raise (e : exn).
Arguments Ok {A} a.
Arguments Raise {A} e.

(** Sequencing: the first exception raised ends the computation. *)
Definition bind {A B : Type} (r : result A) (k : A → result B) : result B :=
  match r with
  | Ok a => k a
  | Raise e => Raise e
  end.

Notation "x <- r ;; k" := (bind r (λ x, k))
  (at level 100, r at next level, right associativity, only parsing).

(** [m[k]] on a dict: [KeyError] when the key is missing. *)
Definition getitem `{Lookup K V M} (m : M) (k : K) : result V :=
  match m !! k with
  | Some v => Ok v
  | None => Raise KeyError
  end.

(** ** Module constants *)

Definition BAD_CHARS : list ascii := ["#"; ","; ";"; ":"]%char.
Definition UNKNOWN_COMMAND : string := "UNKNOWN_COMMMAND".
Definition OLD_DATA : string := "OLD_DATA".

(** A point is the pair [(x, y)]. *)
Abbreviation point num := (num * num)%type (only parsing).

Section Sockets.
Context {num : Type} `{PyNumber num}.

(** The values handed to [json.dumps]. *)
#[warnings="-register-all"]
Inductive pyval :=
  | PStr (s : string)
  | PNum (n : num)
  | PList (items : list pyval)
  | PDict (items : list (string * pyval)).

(** [json.dumps(v)] with the default separators [', '] and [': '], for a
    value whose strings are ASCII. *)
Fixpoint json_dumps (v : pyval) : string :=
  match v with
  | PStr s => encode_basestring_ascii s
  | PNum n => num_json n
  | PList items => "[" +:+ str_join ", " (map json_dumps items) +:+ "]"
  | PDict items =>
      "{" +:+ str_join ", "
                (map (λ kv, encode_basestring_ascii (fst kv) +:+ ": "
                             +:+ json_dumps (snd kv)) items) +:+ "}"
  end.

(** Every [str] of the value, the keys of its dicts included, is ASCII. *)
Fixpoint ascii_only (v : pyval) : bool :=
  match v with
  | PStr s => is_ascii s
  | PNum _ => true
  | PList items => forallb ascii_only items
  | PDict items => forallb (λ kv, is_ascii (fst kv) && ascii_only (snd kv)) items
  end.

(** What is left to the Python library: [json.dumps] on a value that holds
    a [str] with a byte above 127 ([UnicodeDecodeError], or the text with the
    code points escaped), and the order in which the items of a dict are
    iterated, which Python 2 derives from the hashes of the keys. *)
Class PyJson := {
  dumps_non_ascii : pyval → result string;
  dict_items : gmap string pyval → list (string * pyval);
  dict_items_perm (m : gmap string pyval) : dict_items m ≡ₚ map_to_list m;
}.

Context `{!PyJson}.

(** [json.dumps(v)] as the handler calls it. *)
Definition dumps (v : pyval) : result string :=
  if ascii_only v then Ok (json_dumps v) else dumps_non_ascii v.

Definition pyval_of_point (p : point num) : pyval := PList [PNum p.1; PNum p.2].

(** ['{},{}'.format] applied to the two coordinates of the point. *)
Definition format_point (p : point num) : string :=
  num_format p.1 +:+ "," +:+ num_format p.2.

(** *** The registry [DATA]

    [DATA[port]] is the dict
    [{'type': .., 'codenames': [..], 'data': {..}, 'timeouts': {..}}];
    the entry of a [DataSocket] has no ['timeouts'] key.  A timeout is a
    number or [None]. *)
Record dataset := Dataset {
  type : string;
  codenames : list string;
  data : gmap string (point num);
  timeouts : option (gmap string (option num));
}.

(** [d['timeouts']] *)
Definition get_timeouts (d : dataset) : result (gmap string (option num)) :=
  match timeouts d with
  | Some tm => Ok tm
  | None => Raise KeyError
  end.

(** [tm.get(code_name)]: [None] for a missing key and for a stored [None]. *)
Definition dict_get (tm : gmap string (option num)) (code_name : string) : option num :=
  match tm !! code_name with
  | Some timeout => timeout
  | None => None
  end.

(** *** DataUDPHandler *)

Definition _old_data (now : num) (DATA : gmap Z dataset) (port : Z)
    (code_name : string) : result bool :=
  d <- getitem DATA port ;;
  if decide (type d = "date") then
    tm <- get_timeouts d ;;
    match dict_get tm code_name with
    | Some timeout =>
        p <- getitem (data d) code_name ;;
        let point_time := p.1 in
        Ok (num_gt (num_sub now point_time) timeout)
    | None => Ok false
    end
  else if decide (type d = "data") then Ok false
  else Raise NotImplementedError.

(** [name in DATA[port]['data']] *)
Definition in_data (DATA : gmap Z dataset) (port : Z) (name : string) : result bool :=
  d <- getitem DATA port ;;
  Ok (bool_decide (is_Some (data d !! name))).

(** [DATA[port]['data'][name]] *)
Definition data_of (DATA : gmap Z dataset) (port : Z) (name : string) : result (point num) :=
  d <- getitem DATA port ;;
  getitem (data d) name.

Definition _single_value (time : nat → num) (DATA : gmap Z dataset) (port : Z)
    (command : string) : result string :=
  match str_split "#" command with
  | [name; command] =>
      known <- (if decide (command = "raw") then in_data DATA port name
               else Ok false : result bool) ;;
      if known then
        old <- _old_data (time 0) DATA port name ;;
        if old then Ok OLD_DATA
        else p <- data_of DATA port name ;; Ok (format_point p)
      else
        known <- (if decide (command = "json") then in_data DATA port name
                 else Ok false : result bool) ;;
        if known then
          old <- _old_data (time 0) DATA port name ;;
          if old then dumps (PStr OLD_DATA)
          else p <- data_of DATA port name ;; dumps (pyval_of_point p)
        else Ok UNKNOWN_COMMAND
  | [] | [_] => Raise (ValueError "need more than 1 value to unpack")
  | _ => Raise (ValueError "too many values to unpack")
  end.

(** [for codename in DATA[port]['codenames']: out.append(body)]; the i-th
    round reads the clock for the i-th time. *)
Fixpoint for_codenames {A} (body : nat → string → result A) (i : nat)
    (names : list string) : result (list A) :=
  match names with
  | [] => Ok []
  | codename :: rest =>
      a <- body i codename ;;
      out <- for_codenames body (S i) rest ;;
      Ok (a :: out)
  end.

(** The loop of [json_wn], which overwrites the entries of the copy; the
    keys of the copy are those of [DATA[port]['data']] throughout. *)
Fixpoint json_wn_loop (time : nat → num) (DATA : gmap Z dataset) (port : Z)
    (i : nat) (names : list string) (datacopy : gmap string pyval)
    : result (gmap string pyval) :=
  match names with
  | [] => Ok datacopy
  | codename :: rest =>
      old <- _old_data (time i) DATA port codename ;;
      json_wn_loop time DATA port (S i) rest
        (if old then <[codename := PStr OLD_DATA]> datacopy else datacopy)
  end.

Definition _all_values (time : nat → num) (DATA : gmap Z dataset) (port : Z)
    (command : string) : result string :=
  if decide (command = "raw") then
    d <- getitem DATA port ;;
    strings <- for_codenames (λ i codename,
        old <- _old_data (time i) DATA port codename ;;
        if old then Ok OLD_DATA
        else p <- data_of DATA port codename ;; Ok (format_point p))
      0 (codenames d) ;;
    Ok (str_join ";" strings)
  else if decide (command = "json") then
    d <- getitem DATA port ;;
    points <- for_codenames (λ i codename,
        old <- _old_data (time i) DATA port codename ;;
        if old then Ok (PStr OLD_DATA)
        else p <- data_of DATA port codename ;; Ok (pyval_of_point p))
      0 (codenames d) ;;
    dumps (PList points)
  else if decide (command = "raw_wn") then
    d <- getitem DATA port ;;
    strings <- for_codenames (λ i codename,
        old <- _old_data (time i) DATA port codename ;;
        if old then Ok (codename +:+ ":" +:+ OLD_DATA)
        else p <- data_of DATA port codename ;;
             Ok (codename +:+ ":" +:+ format_point p))
      0 (codenames d) ;;
    Ok (str_join ";" strings)
  else if decide (command = "json_wn") then
    d <- getitem DATA port ;;
    let datacopy := pyval_of_point <$> data d in
    datacopy <- json_wn_loop time DATA port 0 (codenames d) datacopy ;;
    dumps (PDict (dict_items datacopy))
  else if decide (command = "codenames_raw") then
    d <- getitem DATA port ;;
    Ok (str_join "," (codenames d))
  else if decide (command = "codenames_json") then
    d <- getitem DATA port ;;
    dumps (PList (PStr <$> codenames d))
  else Ok UNKNOWN_COMMAND.

(** [handle]: the string handed to [socket.sendto]. *)
Definition handle (time : nat → num) (DATA : gmap Z dataset) (port : Z)
    (command : string) : result string :=
  if decide (str_count "#" command = 1) then _single_value time DATA port command
  else _all_values time DATA port command.

(** *** The state of the process

    [DATA] is the module variable; [bound] is the set of UDP ports held by
    an open socket.  [SocketServer.UDPServer(('', port), ..)] binds its
    socket when it is created and raises [socket.error] when the port is
    taken.  [shutdown()] ends [serve_forever] and leaves the socket open;
    the socket is closed by [server_close()] or when the server object is
    reclaimed. *)
Record world := World {
  DATA : gmap Z dataset;
  bound : gset Z;
}.

Definition UDPServer (port : Z) (w : world) : result unit * world :=
  if decide (port ∈ bound w) then (Raise SocketError, w)
  else (Ok (), World (DATA w) ({[port]} ∪ bound w)).

Definition server_close (port : Z) (w : world) : world :=
  World (DATA w) (bound w ∖ {[port]}).

(** The texts of the [ValueError]s. *)
Definition port_message (port : Z) : string :=
  "A UDP server already exists on port: " +:+ pretty port.
Definition unique_message (name : string) : string :=
  "Codenames must be unique; '" +:+ name +:+ "' is present more than once".
Definition char_message (char : ascii) : string :=
  "The character '" +:+ str_of_char char +:+ "' is not allowed in the codenames".
Definition timeouts_message : string :=
  "If a list of timeouts is supplied, it must have as many items as there are in codenames".

(** [DATA[port]['data'][name] = p] *)
Definition setitem_data (D : gmap Z dataset) (port : Z) (name : string)
    (p : point num) : result (gmap Z dataset) :=
  d <- getitem D port ;;
  Ok (<[port := Dataset (type d) (codenames d) (<[name := p]> (data d)) (timeouts d)]> D).

(** [DATA[port]['timeouts'][name] = timeout] *)
Definition setitem_timeouts (D : gmap Z dataset) (port : Z) (name : string)
    (timeout : option num) : result (gmap Z dataset) :=
  d <- getitem D port ;;
  tm <- get_timeouts d ;;
  Ok (<[port := Dataset (type d) (codenames d) (data d) (Some (<[name := timeout]> tm))]> D).

(** The two checks made on each name: duplicates first, then the
    characters of [BAD_CHARS] in their order. *)
Definition check_name (codenames : list string) (name : string) : result unit :=
  if decide (1 < list_count name codenames) then
    Raise (ValueError (unique_message name))
  else
    match List.find (λ char, str_contains char name) BAD_CHARS with
    | Some char => Raise (ValueError (char_message char))
    | None => Ok ()
    end.

(** *** DataSocket

    [DATA[port]] gets [list(codenames)], a copy of the argument, before the
    names are checked; the server, and with it the socket, is created last. *)

(** [for name in codenames: ...]; the registry is returned as the loop
    leaves it, also when it raises. *)
Fixpoint DataSocket_loop (codenames : list string) (port : Z) (default : point num)
    (names : list string) (D : gmap Z dataset) : result unit * gmap Z dataset :=
  match names with
  | [] => (Ok (), D)
  | name :: rest =>
      match check_name codenames name with
      | Raise e => (Raise e, D)
      | Ok _ =>
          match setitem_data D port name default with
          | Raise e => (Raise e, D)
          | Ok D' => DataSocket_loop codenames port default rest D'
          end
      end
  end.

Definition DataSocket_init (codenames : list string) (port : Z)
    (default_x default_y : num) (w : world) : result unit * world :=
  if decide (is_Some (DATA w !! port)) then
    (Raise (ValueError (port_message port)), w)
  else
    let D := <[port := Dataset "data" codenames ∅ None]> (DATA w) in
    match DataSocket_loop codenames port (default_x, default_y) codenames D with
    | (Raise e, D') => (Raise e, World D' (bound w))
    | (Ok _, D') => UDPServer port (World D' (bound w))
    end.

(** [stop]: [self.server.shutdown()], then [del DATA[self.port]].  The
    call is made on a publisher whose [serve_forever] loop runs, where
    [shutdown()] returns. *)
Definition DataSocket_stop (port : Z) (w : world) : result unit * world :=
  match DATA w !! port with
  | Some _ => (Ok (), World (delete port (DATA w)) (bound w))
  | None => (Raise KeyError, w)
  end.

Definition DataSocket_set_point (port : Z) (codename : string) (p : point num)
    (w : world) : result unit * world :=
  match setitem_data (DATA w) port codename p with
  | Ok D => (Ok (), World D (bound w))
  | Raise e => (Raise e, w)
  end.

(** *** DateDataSocket *)

(** The argument [timeouts]: a value without [__len__] (a number or
    [None]) or a sequence of them. *)
Inductive timeouts_arg :=
  | Single (timeout : option num)
  | Several (timeouts : list (option num)).

(** "Check and possibly convert timeout" *)
Definition convert_timeouts (codenames : list string) (timeouts : timeouts_arg)
    : result (list (option num)) :=
  match timeouts with
  | Several ts =>
      if decide (length ts ≠ length codenames) then
        Raise (ValueError timeouts_message)
      else Ok ts
  | Single timeout => Ok (replicate (length codenames) timeout)
  end.

(** [for name, timeout in zip(codenames, timeouts): ...] *)
Fixpoint DateDataSocket_loop (codenames : list string) (port : Z) (default : point num)
    (pairs : list (string * option num)) (D : gmap Z dataset)
    : result unit * gmap Z dataset :=
  match pairs with
  | [] => (Ok (), D)
  | (name, timeout) :: rest =>
      match check_name codenames name with
      | Raise e => (Raise e, D)
      | Ok _ =>
          match setitem_data D port name default with
          | Raise e => (Raise e, D)
          | Ok D' =>
              match setitem_timeouts D' port name timeout with
              | Raise e => (Raise e, D')
              | Ok D'' => DateDataSocket_loop codenames port default rest D''
              end
          end
      end
  end.

Definition DateDataSocket_init (codenames : list string) (port : Z)
    (default_x default_y : num) (timeouts : timeouts_arg) (w : world)
    : result unit * world :=
  if decide (is_Some (DATA w !! port)) then
    (Raise (ValueError (port_message port)), w)
  else
    match convert_timeouts codenames timeouts with
    | Raise e => (Raise e, w)
    | Ok timeouts =>
        let D := <[port := Dataset "date" codenames ∅ (Some ∅)]> (DATA w) in
        match DateDataSocket_loop codenames port (default_x, default_y)
                (zip codenames timeouts) D with
        | (Raise e, D') => (Raise e, World D' (bound w))
        | (Ok _, D') => UDPServer port (World D' (bound w))
        end
    end.

Definition DateDataSocket_stop (port : Z) (w : world) : result unit * world :=
  match DATA w !! port with
  | Some _ => (Ok (), World (delete port (DATA w)) (bound w))
  | None => (Raise KeyError, w)
  end.

Definition DateDataSocket_set_point (port : Z) (codename : string) (p : point num)
    (w : world) : result unit * world :=
  match setitem_data (DATA w) port codename p with
  | Ok D => (Ok (), World D (bound w))
  | Raise e => (Raise e, w)
  end.

(** [set_point_now]: the point is [(time.time(), value)]. *)
Definition DateDataSocket_set_point_now (now : num) (port : Z) (codename : string)
    (value : num) (w : world) : result unit * world :=
  DateDataSocket_set_point port codename (now, value) w.

End Sockets.

Arguments pyval : clear implicits.
Arguments PyJson : clear implicits.
Arguments dataset : clear implicits.
Arguments world : clear implicits.
Arguments timeouts_arg : clear implicits.

(** ** An instance of the numbers

    Python ints, and the floats of integral value: [PyFloat 3] is [3.0].
    On these [-] and [>] are exact, an int prints as its digits and a float
    as its digits followed by [.0] (below [1e11] in size, where [str] and
    [repr] agree and use no exponent).  An operation on an int and a float
    gives a float. *)
Inductive number :=
  | PyInt (z : Z)
  | PyFloat (z : Z).

Definition number_value (n : number) : Z :=
  match n with
  | PyInt z => z
  | PyFloat z => z
  end.

Definition number_sub (a b : number) : number :=
  match a, b with
  | PyInt x, PyInt y => PyInt (x - y)
  | _, _ => PyFloat (number_value a - number_value b)
  end.

Definition number_repr (n : number) : string :=
  match n with
  | PyInt z => pretty z
  | PyFloat z => pretty z +:+ ".0"
  end.

#[global] Instance number_PyNumber : PyNumber number := {
  num_sub := number_sub;
  num_gt a b := bool_decide (number_value b < number_value a)%Z;
  num_format := number_repr;
  num_json := number_repr;
}.

#[global] Program Instance number_ExactNumber : ExactNumber number := {
  num_value n := Qc_of_Z (number_value n);
}.
Next Obligation.
  intros a b. simpl. rewrite bool_decide_eq_true. apply Z2Qc_inj_lt.
Qed.
Next Obligation.
  intros [x|x] [y|y]; simpl; apply Z2Qc_inj_sub.
Qed.

(** A library to run the definitions on ASCII names, which is all the runs
    below hold: the items of a dict come in the order of [map_to_list], one
    of the orders the interface admits, and text that is not ASCII is
    answered with [UnicodeDecodeError] (a [ValueError] in Python), as
    [json.dumps] answers bytes that are not UTF-8; UTF-8 is not decoded. *)
#[global] Instance number_PyJson : PyJson number := {
  dumps_non_ascii _ := Raise (ValueError "UnicodeDecodeError");
  dict_items m := map_to_list m;
  dict_items_perm m := reflexivity (map_to_list m);
}.

(** The commands that [_all_values] knows. *)
Definition bulk_commands : list string :=
  ["raw"; "json"; "raw_wn"; "json_wn"; "codenames_raw"; "codenames_json"].

(** A clock that stands still during a request. *)
Definition at_time {num : Type} (now : num) : nat → num := λ _, now.

(** ** The invariants of a dataset

    Names are unique and free of the characters of [BAD_CHARS]; every name
    has a point; the type is 'data' or 'date', and a 'date' dataset has a
    timeout entry (possibly None) for every name. *)
Definition name_ok (name : string) : Prop :=
  Forall (λ char, str_contains char name = false) BAD_CHARS.

Definition valid_codenames (names : list string) : Prop :=
  NoDup names ∧ Forall name_ok names.

Definition timeouts_ok {num : Type} (d : dataset num) : Prop :=
  match timeouts d with
  | Some tm => Forall (λ name, is_Some (tm !! name)) (codenames d)
  | None => False
  end.

Definition dataset_ok {num : Type} (d : dataset num) : Prop :=
  valid_codenames (codenames d) ∧
  Forall (λ name, is_Some (data d !! name)) (codenames d) ∧
  (type d = "data" ∨ type d = "date" ∧ timeouts_ok d).

#[global] Instance timeouts_ok_dec {num : Type} (d : dataset num) : Decision (timeouts_ok d).
Proof. unfold timeouts_ok. destruct (timeouts d); apply _. Defined.

#[global] Instance dataset_ok_dec {num : Type} (d : dataset num) : Decision (dataset_ok d).
Proof. unfold dataset_ok, valid_codenames, name_ok. apply _. Defined.

(** The names of a dataset are ASCII text: its codenames, and every key of
    its points (which [set_point] may have added to). *)
Definition ascii_names {num : Type} (d : dataset num) : Prop :=
  Forall (λ name, is_ascii name = true) (codenames d) ∧
  map_Forall (λ name _, is_ascii name = true) (data d).

#[global] Instance ascii_names_dec {num : Type} (d : dataset num) : Decision (ascii_names d).
Proof. unfold ascii_names. apply _. Defined.

(** ** What a successful constructor leaves in [DATA] *)

(** The points after [DATA[port]['data'][name] = p] for each name in turn. *)
Definition data_after {num : Type} (p : point num) (names : list string)
    (m : gmap string (point num)) : gmap string (point num) :=
  foldl (λ m name, <[name := p]> m) m names.

(** The timeouts after [DATA[port]['timeouts'][name] = timeout] for each
    pair in turn. *)
Definition timeouts_after {num : Type} (pairs : list (string * option num))
    (m : gmap string (option num)) : gmap string (option num) :=
  foldl (λ m pair, <[pair.1 := pair.2]> m) m pairs.

(** ** Activity between construction and a query

    Calls of [set_point] and [set_point_now] on any port, and requests
    served by the handler, which reads [DATA] and writes nothing ([json_wn]
    works on a copy of the points). *)
Inductive activity (num : Type) :=
  | SetPoint (port : Z) (codename : string) (p : point num)
  | SetPointNow (now : num) (port : Z) (codename : string) (value : num)
  | Request (time : nat → num) (port : Z) (command : string).
Arguments SetPoint {num} port codename p.
Arguments SetPointNow {num} now port codename value.
Arguments Request {num} time port command.

Definition perform {num : Type} (w : world num) (a : activity num) : world num :=
  match a with
  | SetPoint port codename p => snd (DataSocket_set_point port codename p w)
  | SetPointNow now port codename value =>
      snd (DateDataSocket_set_point_now now port codename value w)
  | Request _ _ _ => w
  end.

Definition perform_all {num : Type} (w : world num) (acts : list (activity num)) : world num :=
  foldl perform w acts.

(** [s] occurs in [t]. *)
Definition substring (s t : string) : Prop := ∃ pre post, t = pre +:+ s +:+ post.

(** The bulk commands whose replies are built from the codenames alone. *)
Definition codename_driven : list string :=
  ["raw"; "json"; "raw_wn"; "codenames_raw"; "codenames_json"].

(** [w'] is the state left by a constructor of either class that returned. *)
Definition constructed {num : Type} (cs : list string) (port : Z) (w w' : world num) : Prop :=
  (∃ default_x default_y, DataSocket_init cs port default_x default_y w = (Ok (), w')) ∨
  (∃ default_x default_y arg,
     DateDataSocket_init cs port default_x default_y arg w = (Ok (), w')).

(** ** Two datasets to run the definitions on *)

Definition demo_data : dataset number :=
  Dataset "data" ["a"; "b"]
    (<["a" := (PyInt 47, PyInt 47)]> (<["b" := (PyInt 47, PyInt 47)]> ∅)) None.

Definition demo_date : dataset number :=
  Dataset "date" ["temp"; "pressure"]
    (<["temp" := (PyFloat 100, PyFloat 21)]> (<["pressure" := (PyFloat 100, PyInt 1)]> ∅))
    (Some (<["temp" := Some (PyInt 5)]> (<["pressure" := None]> ∅))).

Definition demo_DATA : gmap Z (dataset number) :=
  <[9000%Z := demo_data]> (<[9001%Z := demo_date]> ∅).

(** ** The drivers

    The parts of [src/PyExpLabSys/drivers] that compute on text that has
    already been read: [PowerWalkerEthernet.read_events] on the lines of the
    event log and [TeltonikaRut.cell_information] on the output of gsmctl.
    The transport (ssh, http) is not modelled; [line.strip()],
    [datetime.strptime] and [int(s, 16)] of the Python library are taken as
    they come: a timestamp is the number of seconds it stands for, and a
    parse that raises ValueError gives [None]. *)
Module Drivers.

Inductive exception :=
  | IndexError
  | ValueError
  | UnboundLocalError.

Inductive outcome (A : Type) :=
  | Return (a : A)
  | Raise (e : exception).
Arguments Return {A} a.
Arguments Raise {A} e.

(** [l[i]] *)
Definition index {A : Type} (l : list A) (i : nat) : outcome A :=
  match l !! i with
  | Some a => Return a
  | None => Raise IndexError
  end.

(** A library parse: ValueError when it fails. *)
Definition parsed {A : Type} (r : option A) : outcome A :=
  match r with
  | Some a => Return a
  | None => Raise ValueError
  end.

(** [s.find(pat)]: the index of the first occurrence, or -1. *)
Fixpoint str_find (pat s : string) : Z :=
  if String.prefix pat s then 0%Z
  else match s with
       | EmptyString => (-1)%Z
       | String _ rest =>
           let r := str_find pat rest in
           if (r <? 0)%Z then (-1)%Z else (r + 1)%Z
       end.

(** [s[n:]] *)
Fixpoint str_from (n : nat) (s : string) : string :=
  match n, s with
  | O, _ => s
  | S n', String _ rest => str_from n' rest
  | S _, EmptyString => EmptyString
  end.

(** *** PowerWalkerEthernet.read_events *)

Record event := Event {
  timestamp : Z;
  event_text : string;
  source : string;
}.

(** What [read_events] prints. *)
Inductive printed :=
  | TooFewLines
  | Events (events : list event).

Section PowerWalker.
Variable strip : string → string.
Variable strptime : string → option Z.

(** [for line in raw_lines[1:]: ...]; [self.latest_event] is returned as
    the loop leaves it, also when a line raises. *)
Fixpoint read_events_loop (only_new : bool) (lines : list string) (latest_event : Z)
    (events : list event) : outcome printed * Z :=
  match lines with
  | [] => (Return (Events events), latest_event)
  | line :: rest =>
      let split_line := str_split "," (strip line) in
      match index split_line 0 with
      | Raise e => (Raise e, latest_event)
      | Return field =>
          match parsed (strptime field) with
          | Raise e => (Raise e, latest_event)
          | Return timestamp =>
              if only_new && bool_decide (timestamp < latest_event)%Z then
                read_events_loop only_new rest latest_event events
              else
                match index split_line 1 with
                | Raise e => (Raise e, latest_event)
                | Return event =>
                    match index split_line 2 with
                    | Raise e => (Raise e, latest_event)
                    | Return source =>
                        read_events_loop only_new rest timestamp
                          (events ++ [Event timestamp event source])
                    end
                end
          end
      end
  end.

Definition read_events (only_new : bool) (raw_lines : list string) (latest_event : Z)
    : outcome printed * Z :=
  if decide (length raw_lines < 2) then (Return TooFewLines, latest_event)
  else read_events_loop only_new (drop 1 raw_lines) latest_event [].

(** The event on a line that the loop accepts. *)
Definition event_of (line : string) : option event :=
  match str_split "," (strip line) with
  | field :: event :: source :: _ =>
      match strptime field with
      | Some timestamp => Some (Event timestamp event source)
      | None => None
      end
  | _ => None
  end.

End PowerWalker.

(** *** TeltonikaRut.cell_information *)

Record cell_info := CellInfo {
  mcc : string;
  mnc : string;
  lac : Z;
  cell_id : Z;
}.

Section Teltonika.
Variable int16 : string → option Z.

(** [cell_information] on [info], the [stdout] of gsmctl --serving. *)
Definition cell_information (info : string) : outcome cell_info :=
  if decide (0 < str_find "GSM" info)%Z then
    let pos := (str_find "GSM" info + 5)%Z in
    let data := str_split "," (str_from (Z.to_nat pos) info) in
    match index data 0 with
    | Raise e => Raise e
    | Return mcc =>
        match index data 1 with
        | Raise e => Raise e
        | Return mnc =>
            match index data 2 with
            | Raise e => Raise e
            | Return lac =>
                match parsed (int16 lac) with
                | Raise e => Raise e
                | Return lac =>
                    match index data 3 with
                    | Raise e => Raise e
                    | Return cell_id =>
                        match parsed (int16 cell_id) with
                        | Raise e => Raise e
                        | Return cell_id => Return (CellInfo mcc mnc lac cell_id)
                        end
                    end
                end
            end
        end
    end
  else Raise UnboundLocalError.

End Teltonika.

End Drivers.

(** ** A log and an output to run the drivers on

    The library parses are given on the texts that occur: the two
    timestamps of the log as seconds, the two hexadecimal fields of the
    output as numbers. *)
Definition demo_strptime (s : string) : option Z :=
  if decide (s = "2024/01/01 00:00:01") then Some 1%Z
  else if decide (s = "2024/01/01 00:00:05") then Some 5%Z
  else None.

Definition demo_int16 (s : string) : option Z :=
  if decide (s = "9C4") then Some 2500%Z
  else if decide (s = "1A2B") then Some 6699%Z
  else None.

Definition demo_log : list string :=
  ["Date,Event,Source";
   "2024/01/01 00:00:01,AC fail,UPS";
   "2024/01/01 00:00:05,AC restored,UPS";
   "2024/01/01 00:00:05,Battery test,Web"].

Definition demo_events : list Drivers.event :=
  [Drivers.Event 1 "AC fail" "UPS";
   Drivers.Event 5 "AC restored" "UPS";
   Drivers.Event 5 "Battery test" "Web"].

(** * Properties *)

(** ** The text functions *)

Lemma str_split_length (c : ascii) (s : string) :
  length (str_split c s) = S (str_count c s).
Proof.
  induction s as [|a s IH]; simpl; [done|].
  destruct (decide (a = c)); simpl; [by rewrite IH|].
  destruct (str_split c s); simpl in *; lia.
Qed.

Lemma str_split_one (c : ascii) (s : string) :
  str_count c s = 1 → ∃ name mode, str_split c s = [name; mode].
Proof.
  intros Hc. pose proof (str_split_length c s) as Hl. rewrite Hc in Hl.
  destruct (str_split c s) as [|name [|mode [|? ?]]]; simpl in Hl; try lia.
  by exists name, mode.
Qed.

Lemma str_split_none (c : ascii) (s : string) :
  str_count c s = 0 → str_split c s = [s].
Proof.
  induction s as [|a s IH]; simpl; [done|].
  destruct (decide (a = c)); [lia|]. intros Hc. by rewrite IH.
Qed.

Lemma str_split_sep (c : ascii) (name mode : string) :
  str_count c name = 0 → str_count c mode = 0 →
  str_split c (name +:+ String c mode) = [name; mode].
Proof.
  intros Hn Hm. induction name as [|a name IH]; simpl in *.
  - destruct (decide (c = c)); [|done]. by rewrite str_split_none.
  - destruct (decide (a = c)); [lia|]. by rewrite IH.
Qed.

Lemma str_count_app (c : ascii) (s t : string) :
  str_count c (s +:+ t) = str_count c s + str_count c t.
Proof. induction s as [|a s IH]; simpl; [done|]. rewrite IH. lia. Qed.

(** ** The handler *)

Section Handler.
Context {num : Type} `{PyNumber num} `{!PyJson num}.
Implicit Types (DATA : gmap Z (dataset num)) (d : dataset num) (p : point num).
Implicit Types (time : nat → num) (now : num) (port : Z).

Lemma getitem_Some `{Lookup K V M} (m : M) (k : K) (v : V) :
  m !! k = Some v → getitem m k = Ok v.
Proof. unfold getitem. by intros ->. Qed.

Lemma getitem_None `{Lookup K V M} (m : M) (k : K) :
  m !! k = None → getitem m k = Raise KeyError.
Proof. unfold getitem. by intros ->. Qed.

Lemma all_values_unknown time DATA port command :
  command ∉ bulk_commands → _all_values time DATA port command = Ok UNKNOWN_COMMAND.
Proof.
  intros Hn. unfold _all_values.
  repeat (case_decide; [exfalso; apply Hn; subst command; unfold bulk_commands; set_solver|]).
  done.
Qed.

Lemma old_data_plain now DATA port d code_name :
  DATA !! port = Some d → type d = "data" →
  _old_data now DATA port code_name = Ok false.
Proof.
  intros Hd Ht. unfold _old_data. rewrite (getitem_Some _ _ _ Hd). simpl.
  rewrite Ht. done.
Qed.

Lemma old_data_date now DATA port d tm code_name :
  DATA !! port = Some d → type d = "date" → timeouts d = Some tm →
  _old_data now DATA port code_name =
    match dict_get tm code_name with
    | Some timeout =>
        p <- getitem (data d) code_name ;; Ok (num_gt (num_sub now p.1) timeout)
    | None => Ok false
    end.
Proof.
  intros Hd Ht Htm. unfold _old_data. rewrite (getitem_Some _ _ _ Hd). simpl.
  rewrite Ht. simpl. unfold get_timeouts. rewrite Htm. done.
Qed.

(** C1, as far as the code goes: a command that is not understood is
    answered with the text of [UNKNOWN_COMMAND], which is spelt with three
    Ms and so is not the string UNKNOWN_COMMAND; stale data is answered
    with the string OLD_DATA, between double quotes when it goes through
    json.dumps. *)
Theorem unknown_command_spelling time DATA port :
  handle time DATA port "foo" = Ok "UNKNOWN_COMMMAND" ∧
  handle time DATA port "name#foo" = Ok "UNKNOWN_COMMMAND" ∧
  UNKNOWN_COMMAND ≠ "UNKNOWN_COMMAND" ∧
  OLD_DATA = "OLD_DATA" ∧
  json_dumps (PStr OLD_DATA : pyval num) = String dquote ("OLD_DATA" +:+ String dquote "").
Proof. repeat split; done. Qed.

(** C4: the command goes to [_single_value] exactly when it holds one
    [#]; with none or several it goes to [_all_values], where anything
    outside the six bulk commands, such as a#b#raw, is answered with
    [UNKNOWN_COMMAND]. *)
Theorem handle_dispatch time DATA port command :
  (str_count "#" command = 1 →
     handle time DATA port command = _single_value time DATA port command) ∧
  (str_count "#" command ≠ 1 →
     handle time DATA port command = _all_values time DATA port command ∧
     (command ∉ bulk_commands → handle time DATA port command = Ok UNKNOWN_COMMAND)) ∧
  (command ∈ bulk_commands → str_count "#" command ≠ 1) ∧
  str_count "#" "a#b#raw" = 2 ∧
  handle time DATA port "a#b#raw" = Ok UNKNOWN_COMMAND.
Proof.
  unfold handle. repeat split.
  - intros Hc. by case_decide.
  - by case_decide.
  - case_decide; [done|]. apply all_values_unknown.
  - unfold bulk_commands. intros Hin Hc.
    repeat (apply elem_of_cons in Hin as [->|Hin]; [done|]).
    by apply elem_of_nil in Hin.
Qed.

End Handler.

Lemma handle_dispatch_witness :
  handle (at_time (PyInt 0)) ∅ 9000 "a#raw"
    = _single_value (at_time (PyInt 0)) ∅ 9000 "a#raw".
Proof. apply (handle_dispatch (at_time (PyInt 0)) ∅ 9000 "a#raw"). reflexivity. Defined.

(** ** The handler on the two datasets

    [demo_date] holds temp with a timeout of 5 and pressure with none, both
    set at time 100. *)

Example raw_at_the_timeout :
  handle (at_time (PyFloat 105)) demo_DATA 9001 "raw" = Ok "100.0,21.0;100.0,1".
Proof. reflexivity. Qed.

Example raw_past_the_timeout :
  handle (at_time (PyFloat 106)) demo_DATA 9001 "raw" = Ok "OLD_DATA;100.0,1".
Proof. reflexivity. Qed.

Example raw_wn_past_the_timeout :
  handle (at_time (PyFloat 106)) demo_DATA 9001 "raw_wn"
    = Ok "temp:OLD_DATA;pressure:100.0,1".
Proof. reflexivity. Qed.

Example json_past_the_timeout :
  handle (at_time (PyFloat 106)) demo_DATA 9001 "json"
    = Ok ("[" +:+ encode_basestring_ascii "OLD_DATA" +:+ ", [100.0, 1]]").
Proof. reflexivity. Qed.

Example single_value_plain :
  handle (at_time (PyFloat 106)) demo_DATA 9000 "a#raw" = Ok "47,47" ∧
  handle (at_time (PyFloat 106)) demo_DATA 9000 "a#json" = Ok "[47, 47]" ∧
  handle (at_time (PyFloat 106)) demo_DATA 9000 "codenames_raw" = Ok "a,b".
Proof. repeat split; reflexivity. Qed.

Example request_on_a_stopped_port :
  handle (at_time (PyFloat 106)) demo_DATA 9002 "raw" = Raise KeyError ∧
  handle (at_time (PyFloat 106)) demo_DATA 9002 "nonsense" = Ok UNKNOWN_COMMAND.
Proof. split; reflexivity. Qed.

(** ** Staleness *)


Section Staleness.
Context {num : Type} `{ExactNumber num} `{!PyJson num}.
Implicit Types (DATA : gmap Z (dataset num)) (d : dataset num) (p : point num).

(** C3: in a dataset of type 'data' no codename is ever stale; in a
    dataset of type 'date' a codename with a point is stale exactly when
    a timeout other than None is stored for it and [now - x > timeout],
    strictly: a point with [x = now - timeout] is not stale. *)
Theorem old_data_strict (now : num) DATA (port : Z) d :
  DATA !! port = Some d →
  (type d = "data" → ∀ code_name, _old_data now DATA port code_name = Ok false) ∧
  (type d = "date" → ∀ tm code_name p,
     timeouts d = Some tm → data d !! code_name = Some p →
     ∃ stale, _old_data now DATA port code_name = Ok stale ∧
       (stale = true ↔
          ∃ timeout, tm !! code_name = Some (Some timeout) ∧
            num_gt (num_sub now p.1) timeout = true) ∧
       (∀ timeout, tm !! code_name = Some (Some timeout) →
          (stale = true ↔ (num_value timeout < num_value now - num_value p.1)%Qc) ∧
          (num_value p.1 = (num_value now - num_value timeout)%Qc → stale = false))).
Proof.
  intros Hd. split.
  - intros Ht code_name. by eapply old_data_plain.
  - intros Ht tm code_name p Htm Hp.
    rewrite (old_data_date _ _ _ _ _ _ Hd Ht Htm). unfold dict_get.
    destruct (tm !! code_name) as [[timeout|]|] eqn:Hget.
    + unfold getitem. rewrite Hp. simpl. eexists. split; [done|]. split.
      * split; [intros Hgt; by exists timeout | by intros (t & [= ->] & Hgt)].
      * intros t [= <-]. rewrite num_gt_value, num_sub_value. split; [done|].
        intros Hx. apply not_true_is_false. rewrite num_gt_value, num_sub_value, Hx.
        replace (num_value now - (num_value now - num_value timeout))%Qc
          with (num_value timeout) by ring.
        intros Hlt. by apply Qclt_not_eq in Hlt.
    + exists false. split; [done|]. split; [|done].
      split; [done|]. by intros (t & [=] & _).
    + exists false. split; [done|]. split; [|done].
      split; [done|]. by intros (t & [=] & _).
Qed.

End Staleness.

Lemma old_data_strict_witness :
  ∃ stale, _old_data (PyFloat 105) demo_DATA 9001 "temp" = Ok stale ∧
    (stale = true ↔
       ∃ timeout, (<["temp" := Some (PyInt 5)]> (<["pressure" := None]> ∅)
                     : gmap string (option number)) !! "temp" = Some (Some timeout) ∧
         num_gt (num_sub (PyFloat 105) (PyFloat 100)) timeout = true) ∧
    (∀ timeout, (<["temp" := Some (PyInt 5)]> (<["pressure" := None]> ∅)
                   : gmap string (option number)) !! "temp" = Some (Some timeout) →
       (stale = true
          ↔ (num_value timeout < num_value (PyFloat 105) - num_value (PyFloat 100))%Qc) ∧
       (num_value (PyFloat 100) = (num_value (PyFloat 105) - num_value timeout)%Qc →
        stale = false)).
Proof.
  refine (proj2 (old_data_strict (PyFloat 105) demo_DATA 9001 demo_date _) _ _
            "temp" (PyFloat 100, PyFloat 21) _ _); reflexivity.
Defined.

(** ** json.dumps on what the handler hands to it *)

Section Dumps.
Context {num : Type} `{PyNumber num} `{!PyJson num}.
Implicit Types (DATA : gmap Z (dataset num)) (d : dataset num) (p : point num).
Implicit Types (time : nat → num) (port : Z).

Lemma dumps_ascii (v : pyval num) : ascii_only v = true → dumps v = Ok (json_dumps v).
Proof. intros Hv. unfold dumps. by rewrite Hv. Qed.

Lemma dumps_OLD_DATA : dumps (PStr OLD_DATA : pyval num) = Ok (json_dumps (PStr OLD_DATA)).
Proof. reflexivity. Qed.

Lemma dumps_point p : dumps (pyval_of_point p) = Ok (json_dumps (pyval_of_point p)).
Proof. reflexivity. Qed.

Lemma ascii_only_list (items : list (pyval num)) :
  Forall (λ v, ascii_only v = true) items → ascii_only (PList items) = true.
Proof.
  intros Hall. simpl. apply forallb_forall. intros v Hv.
  rewrite Forall_forall in Hall. apply Hall. by apply list_elem_of_In.
Qed.

Lemma ascii_only_names (names : list string) :
  Forall (λ name, is_ascii name = true) names →
  ascii_only (PList (PStr <$> names) : pyval num) = true.
Proof.
  intros Hall. apply ascii_only_list. apply Forall_fmap.
  eapply Forall_impl; [exact Hall|]. by intros name Hname.
Qed.

Lemma ascii_only_dict (m : gmap string (pyval num)) :
  map_Forall (λ name v, is_ascii name = true ∧ ascii_only v = true) m →
  ascii_only (PDict (dict_items m)) = true.
Proof.
  intros Hall. simpl. apply forallb_forall. intros [name v] Hin.
  apply list_elem_of_In in Hin. rewrite (dict_items_perm m) in Hin.
  apply elem_of_map_to_list in Hin. destruct (Hall name v Hin) as [Hn Hv].
  simpl. by rewrite Hn, Hv.
Qed.

Lemma dict_items_empty : dict_items (∅ : gmap string (pyval num)) = [].
Proof.
  apply Permutation_nil_r. rewrite <- (map_to_list_empty (M := gmap string)).
  apply dict_items_perm.
Qed.

Lemma for_codenames_Forall {A} (P : A → Prop) (body : nat → string → result A) names :
  (∀ i name a, body i name = Ok a → P a) →
  ∀ i out, for_codenames body i names = Ok out → Forall P out.
Proof.
  intros Hbody. induction names as [|name names IH]; intros i out; simpl.
  - intros [= <-]. constructor.
  - destruct (body i name) as [a|e] eqn:Ha; simpl; [|done].
    destruct (for_codenames body (S i) names) as [rest|e] eqn:Hrest; simpl; [|done].
    intros [= <-]. constructor; [by eapply Hbody | by eapply IH].
Qed.

(** The points that the json command collects hold no text but [OLD_DATA]. *)
Lemma points_ascii time DATA port names i points :
  for_codenames (λ i codename,
      old <- _old_data (time i) DATA port codename ;;
      if old then Ok (PStr OLD_DATA)
      else p <- data_of DATA port codename ;; Ok (pyval_of_point p)) i names = Ok points →
  ascii_only (PList points) = true.
Proof.
  intros Hloop. apply ascii_only_list.
  eapply for_codenames_Forall; [|exact Hloop].
  intros j name v. simpl.
  destruct (_old_data (time j) DATA port name) as [[|]|e]; simpl; [by intros [= <-]| |done].
  destruct (data_of DATA port name) as [p|e]; simpl; [by intros [= <-]|done].
Qed.

(** The copy that json_wn dumps has the keys of the points and of the
    codenames, and no text but [OLD_DATA] in its values. *)
Lemma json_wn_loop_ascii time DATA port names :
  Forall (λ name, is_ascii name = true) names →
  ∀ i datacopy out,
    map_Forall (λ name v, is_ascii name = true ∧ ascii_only v = true) datacopy →
    json_wn_loop time DATA port i names datacopy = Ok out →
    map_Forall (λ name v, is_ascii name = true ∧ ascii_only v = true) out.
Proof.
  induction 1 as [|name names Hname _ IH]; intros i datacopy out Hcopy; simpl.
  - by intros [= <-].
  - destruct (_old_data (time i) DATA port name) as [old|e]; simpl; [|done].
    apply IH. destruct old; [|done]. by apply map_Forall_insert_2.
Qed.

Lemma datacopy_ascii d :
  ascii_names d →
  map_Forall (λ name (v : pyval num), is_ascii name = true ∧ ascii_only v = true)
    (pyval_of_point <$> data d).
Proof.
  intros [_ Hkeys] name v. rewrite lookup_fmap.
  destruct (data d !! name) as [p|] eqn:Hp; simpl; [|done].
  intros [= <-]. split; [by eapply Hkeys|done].
Qed.

End Dumps.

(** ** The handler never raises on a well-formed dataset *)

Section Totality.
Context {num : Type} `{PyNumber num} `{!PyJson num}.
Implicit Types (DATA : gmap Z (dataset num)) (d : dataset num) (p : point num).
Implicit Types (time : nat → num) (now : num) (port : Z).

Lemma old_data_total now DATA port d name p :
  DATA !! port = Some d → dataset_ok d → data d !! name = Some p →
  ∃ stale, _old_data now DATA port name = Ok stale.
Proof.
  intros Hd (_ & _ & [Ht | [Ht Htm]]) Hp.
  - exists false. by eapply old_data_plain.
  - unfold timeouts_ok in Htm. destruct (timeouts d) as [tm|] eqn:Heq; [|done].
    rewrite (old_data_date _ _ _ _ _ _ Hd Ht Heq).
    destruct (dict_get tm name); [|by eexists].
    unfold getitem. rewrite Hp. by eexists.
Qed.

Lemma data_of_Some DATA port d name p :
  DATA !! port = Some d → data d !! name = Some p → data_of DATA port name = Ok p.
Proof.
  intros Hd Hp. unfold data_of, getitem. rewrite Hd. simpl. by rewrite Hp.
Qed.

Lemma in_data_eq DATA port d name :
  DATA !! port = Some d →
  in_data DATA port name = Ok (bool_decide (is_Some (data d !! name))).
Proof. intros Hd. unfold in_data, getitem. by rewrite Hd. Qed.

Lemma for_codenames_total {A} (body : nat → string → result A) names :
  (∀ i name, name ∈ names → ∃ a, body i name = Ok a) →
  ∀ i, ∃ out, for_codenames body i names = Ok out.
Proof.
  induction names as [|name names IH]; intros Hbody i; simpl; [by eexists|].
  destruct (Hbody i name) as [a ->]; [left|]. simpl.
  destruct (IH (λ j n Hn, Hbody j n (list_elem_of_further _ _ _ Hn)) (S i)) as [out ->].
  simpl. by eexists.
Qed.

Lemma json_wn_loop_total time DATA port d names :
  DATA !! port = Some d → dataset_ok d →
  Forall (λ name, is_Some (data d !! name)) names →
  ∀ i datacopy, ∃ out, json_wn_loop time DATA port i names datacopy = Ok out.
Proof.
  intros Hd Hok. induction 1 as [|name names [p Hp] _ IH]; intros i datacopy; simpl.
  - by eexists.
  - destruct (old_data_total (time i) _ _ _ _ _ Hd Hok Hp) as [stale ->]. simpl.
    apply IH.
Qed.

Lemma point_body_total {A} time DATA port d (stale_out : string → A)
    (fresh_out : string → point num → A) names :
  DATA !! port = Some d → dataset_ok d →
  Forall (λ name, is_Some (data d !! name)) names →
  ∀ i name, name ∈ names →
    ∃ a, (old <- _old_data (time i) DATA port name ;;
          if old then Ok (stale_out name)
          else p <- data_of DATA port name ;; Ok (fresh_out name p)) = Ok a.
Proof.
  intros Hd Hok Hall i name Hin.
  rewrite Forall_forall in Hall. destruct (Hall name Hin) as [p Hp].
  destruct (old_data_total (time i) _ _ _ _ _ Hd Hok Hp) as [stale ->]. simpl.
  destruct stale; [by eexists|].
  rewrite (data_of_Some _ _ _ _ _ Hd Hp). simpl. by eexists.
Qed.

Lemma all_values_total time DATA port d command :
  DATA !! port = Some d → dataset_ok d → ascii_names d →
  ∃ reply, _all_values time DATA port command = Ok reply.
Proof.
  intros Hd Hok Hascii. pose proof Hok as (_ & Hall & _).
  unfold _all_values. repeat case_decide; rewrite ?(getitem_Some _ _ _ Hd); simpl;
    try by eexists.
  - destruct (for_codenames_total _ _
      (point_body_total time DATA port d (λ _, OLD_DATA) (λ _ p, format_point p)
         _ Hd Hok Hall) 0) as [out ->]. simpl. by eexists.
  - destruct (for_codenames_total _ _
      (point_body_total time DATA port d (λ _, PStr OLD_DATA) (λ _ p, pyval_of_point p)
         _ Hd Hok Hall) 0) as [out Hout]. rewrite Hout. simpl.
    rewrite (dumps_ascii _ (points_ascii _ _ _ _ _ _ Hout)). by eexists.
  - destruct (for_codenames_total _ _
      (point_body_total time DATA port d (λ name, name +:+ ":" +:+ OLD_DATA)
         (λ name p, name +:+ ":" +:+ format_point p)
         _ Hd Hok Hall) 0) as [out ->]. simpl. by eexists.
  - destruct (json_wn_loop_total time _ _ _ _ Hd Hok Hall 0
                (pyval_of_point <$> data d)) as [out Hout]. rewrite Hout. simpl.
    rewrite dumps_ascii; [by eexists|]. apply ascii_only_dict.
    eapply json_wn_loop_ascii; [apply Hascii|by apply datacopy_ascii|exact Hout].
  - rewrite dumps_ascii; [by eexists|]. apply ascii_only_names, Hascii.
Qed.

Lemma single_value_total time DATA port d command :
  DATA !! port = Some d → dataset_ok d → str_count "#" command = 1 →
  ∃ reply, _single_value time DATA port command = Ok reply.
Proof.
  intros Hd Hok Hc. destruct (str_split_one _ _ Hc) as (name & mode & Hs).
  unfold _single_value. rewrite Hs.
  assert (∀ (stale_out : result string) (fresh_out : point num → result string),
    (∃ reply, stale_out = Ok reply) → (∀ p, ∃ reply, fresh_out p = Ok reply) →
    bool_decide (is_Some (data d !! name)) = true →
    ∃ reply, (old <- _old_data (time 0) DATA port name ;;
              if old then stale_out
              else p <- data_of DATA port name ;; fresh_out p) = Ok reply) as Hbody.
  { intros stale_out fresh_out Hstale Hfresh [p Hp]%bool_decide_eq_true.
    destruct (old_data_total (time 0) _ _ _ _ _ Hd Hok Hp) as [stale ->]. simpl.
    destruct stale; [done|].
    rewrite (data_of_Some _ _ _ _ _ Hd Hp). simpl. apply Hfresh. }
  destruct (decide (mode = "raw")) as [->|Hraw].
  - rewrite (in_data_eq _ _ _ _ Hd). simpl.
    destruct (bool_decide (is_Some (data d !! name))) eqn:Hin;
      [apply Hbody; [by eexists|by eexists|done]|].
    simpl. by eexists.
  - simpl. destruct (decide (mode = "json")) as [->|Hjson]; [|simpl; by eexists].
    rewrite (in_data_eq _ _ _ _ Hd). simpl.
    destruct (bool_decide (is_Some (data d !! name))) eqn:Hin;
      [apply Hbody; [by eexists|by eexists|done]|].
    by eexists.
Qed.

Lemma single_value_unknown time DATA port d name mode :
  DATA !! port = Some d →
  str_count "#" name = 0 → str_count "#" mode = 0 →
  data d !! name = None ∨ (mode ≠ "raw" ∧ mode ≠ "json") →
  _single_value time DATA port (name +:+ String "#" mode) = Ok UNKNOWN_COMMAND.
Proof.
  intros Hd Hn Hm Hbad. unfold _single_value. rewrite (str_split_sep _ _ _ Hn Hm).
  destruct Hbad as [Hnone | [Hraw Hjson]].
  - assert (bool_decide (is_Some (data d !! name)) = false) as Hin.
    { apply bool_decide_eq_false. rewrite Hnone. by intros [? ?]. }
    repeat case_decide; rewrite ?(in_data_eq _ _ _ _ Hd), ?Hin; simpl;
      rewrite ?(in_data_eq _ _ _ _ Hd), ?Hin; done.
  - by repeat case_decide.
Qed.

(** Without the condition on the names the reply is in the hands of the
    library: a codename with a byte above 127 makes codenames_json return
    what [json.dumps] makes of the list, which is an exception when the
    bytes are not UTF-8. *)
Lemma codenames_json_other_text time DATA port d :
  DATA !! port = Some d → Exists (λ name, is_ascii name = false) (codenames d) →
  handle time DATA port "codenames_json" = dumps_non_ascii (PList (PStr <$> codenames d)).
Proof.
  intros Hd Hbad. unfold handle. rewrite decide_False by done.
  unfold _all_values. simpl. rewrite (getitem_Some _ _ _ Hd). simpl.
  unfold dumps. destruct (ascii_only _) eqn:Hall; [exfalso|done].
  change (forallb ascii_only ((PStr <$> codenames d) : list (pyval num)) = true) in Hall.
  rewrite forallb_forall in Hall. apply Exists_exists in Hbad as (name & Hin & Hname).
  assert (ascii_only (PStr name : pyval num) = true) as Htrue; [|simpl in Htrue; congruence].
  apply Hall, list_elem_of_In, list_elem_of_fmap. by exists name.
Qed.


End Totality.


(** ** The constructors *)

Lemma list_count_not_in (x : string) (l : list string) : x ∉ l → list_count x l = 0.
Proof.
  induction l as [|y l IH]; simpl; [done|].
  intros [Hne Hnin]%not_elem_of_cons. case_decide; [congruence|]. by rewrite IH.
Qed.

Lemma list_count_NoDup (x : string) (l : list string) : NoDup l → list_count x l ≤ 1.
Proof.
  induction 1 as [|y l Hnin _ IH]; simpl; [lia|].
  case_decide; [subst; rewrite list_count_not_in by done|]; lia.
Qed.

Lemma list_count_in (x : string) (l : list string) : x ∈ l → 1 ≤ list_count x l.
Proof.
  induction 1 as [y l|y z l _ IH]; simpl.
  - case_decide; [lia|done].
  - lia.
Qed.

Lemma str_contains_count (c : ascii) (s : string) :
  str_contains c s = false ↔ str_count c s = 0.
Proof.
  induction s as [|a s IH]; simpl; [done|].
  case_decide; [split; [done|lia]|]. by rewrite IH.
Qed.

Lemma name_ok_no_hash (name : string) : name_ok name → str_count "#" name = 0.
Proof.
  intros Hok. apply str_contains_count.
  unfold name_ok, BAD_CHARS in Hok. by apply Forall_cons in Hok as [? _].
Qed.

Section Constructors.
Context {num : Type}.
Implicit Types (D : gmap Z (dataset num)) (d : dataset num) (p : point num).
Implicit Types (w : world num) (port : Z) (names cs : list string).

Lemma dataset_eta d : Dataset (type d) (codenames d) (data d) (timeouts d) = d.
Proof. by destruct d. Qed.

Lemma check_name_valid cs name :
  valid_codenames cs → name ∈ cs → check_name cs name = Ok ().
Proof.
  intros [Hnd Hok] Hin. unfold check_name.
  pose proof (list_count_NoDup name cs Hnd).
  case_decide; [lia|].
  rewrite Forall_forall in Hok. specialize (Hok name Hin).
  unfold name_ok, BAD_CHARS in Hok.
  rewrite !Forall_cons in Hok. destruct Hok as (H1 & H2 & H3 & H4 & _).
  simpl. by rewrite H1, H2, H3, H4.
Qed.

Lemma check_name_Ok cs name :
  check_name cs name = Ok () → list_count name cs ≤ 1 ∧ name_ok name.
Proof.
  unfold check_name. case_decide; [done|]. intros Hfind. split; [lia|].
  destruct (List.find _ BAD_CHARS) as [char|] eqn:Hf; [done|].
  unfold name_ok. apply Forall_forall. intros char Hchar.
  apply list_elem_of_In in Hchar.
  by apply (List.find_none _ _ Hf) in Hchar.
Qed.

Lemma setitem_data_Some D port d name p :
  D !! port = Some d →
  setitem_data D port name p =
    Ok (<[port := Dataset (type d) (codenames d) (<[name := p]> (data d)) (timeouts d)]> D).
Proof. intros Hd. unfold setitem_data, getitem. by rewrite Hd. Qed.

Lemma setitem_timeouts_Some D port d tm name timeout :
  D !! port = Some d → timeouts d = Some tm →
  setitem_timeouts D port name timeout =
    Ok (<[port := Dataset (type d) (codenames d) (data d) (Some (<[name := timeout]> tm))]> D).
Proof.
  intros Hd Htm. unfold setitem_timeouts, getitem, get_timeouts.
  rewrite Hd. simpl. by rewrite Htm.
Qed.

(** The loop of [DataSocket.__init__] on names that pass the checks. *)
Lemma DataSocket_loop_ok cs port p names :
  (∀ name, name ∈ names → check_name cs name = Ok ()) →
  ∀ D d, D !! port = Some d →
  DataSocket_loop cs port p names D =
    (Ok (), <[port := Dataset (type d) (codenames d) (data_after p names (data d))
                        (timeouts d)]> D).
Proof.
  induction names as [|name names IH]; intros Hchk D d Hd; simpl.
  - by rewrite dataset_eta, insert_id.
  - rewrite Hchk by left. rewrite (setitem_data_Some _ _ _ _ _ Hd).
    rewrite (IH (λ n Hn, Hchk n (list_elem_of_further _ _ _ Hn)) _ _
               (lookup_insert_eq _ _ _)).
    simpl. by rewrite insert_insert_eq.
Qed.

(** The loop of [DateDataSocket.__init__] on names that pass the checks. *)
Lemma DateDataSocket_loop_ok cs port p (pairs : list (string * option num)) :
  (∀ name, name ∈ pairs.*1 → check_name cs name = Ok ()) →
  ∀ D d tm, D !! port = Some d → timeouts d = Some tm →
  DateDataSocket_loop cs port p pairs D =
    (Ok (), <[port := Dataset (type d) (codenames d) (data_after p pairs.*1 (data d))
                        (Some (timeouts_after pairs tm))]> D).
Proof.
  induction pairs as [|[name timeout] pairs IH]; intros Hchk D d tm Hd Htm; simpl.
  - by rewrite <-Htm, dataset_eta, insert_id.
  - rewrite Hchk by left. rewrite (setitem_data_Some _ _ _ _ _ Hd).
    erewrite setitem_timeouts_Some; [|apply lookup_insert_eq|done]. simpl.
    erewrite (IH (λ n Hn, Hchk n (list_elem_of_further _ _ _ Hn)));
      [|apply lookup_insert_eq|done].
    simpl. by rewrite !insert_insert_eq.
Qed.

(** Whatever the outcome, the loops keep the entry of the port, with its
    type and its cs, and touch no other port. *)
Lemma DataSocket_loop_keeps cs port p names :
  ∀ D d, D !! port = Some d →
  ∃ d', (DataSocket_loop cs port p names D).2 !! port = Some d' ∧
        type d' = type d ∧ codenames d' = codenames d ∧
        ∀ port', port' ≠ port →
          (DataSocket_loop cs port p names D).2 !! port' = D !! port'.
Proof.
  induction names as [|name names IH]; intros D d Hd; simpl.
  - by exists d.
  - destruct (check_name cs name); [|by exists d].
    rewrite (setitem_data_Some _ _ _ _ _ Hd).
    match goal with |- context [DataSocket_loop _ _ _ _ (<[port := ?d1]> D)] =>
      destruct (IH (<[port := d1]> D) d1 (lookup_insert_eq _ _ _))
        as (d' & Hd' & Ht & Hc & Hother)
    end.
    exists d'. repeat split; [done..|].
    intros port' Hne. rewrite Hother by done. by rewrite lookup_insert_ne.
Qed.

Lemma DateDataSocket_loop_keeps cs port p (pairs : list (string * option num)) :
  ∀ D d, D !! port = Some d →
  ∃ d', (DateDataSocket_loop cs port p pairs D).2 !! port = Some d' ∧
        type d' = type d ∧ codenames d' = codenames d ∧
        ∀ port', port' ≠ port →
          (DateDataSocket_loop cs port p pairs D).2 !! port' = D !! port'.
Proof.
  induction pairs as [|[name timeout] pairs IH]; intros D d Hd; simpl.
  - by exists d.
  - destruct (check_name cs name); [|by exists d].
    rewrite (setitem_data_Some _ _ _ _ _ Hd).
    destruct (setitem_timeouts _ port name timeout) as [D''|e] eqn:Hst; simpl.
    + unfold setitem_timeouts, getitem in Hst. rewrite lookup_insert_eq in Hst.
      simpl in Hst. destruct (get_timeouts _) as [tm|]; [|done]. simpl in Hst.
      injection Hst as <-. rewrite insert_insert_eq.
      match goal with |- context [DateDataSocket_loop _ _ _ _ (<[port := ?d1]> D)] =>
        destruct (IH (<[port := d1]> D) d1 (lookup_insert_eq _ _ _))
          as (d' & Hd' & Ht & Hc & Hother)
      end.
      exists d'. repeat split; [done..|].
      intros port' Hne. rewrite Hother by done. by rewrite lookup_insert_ne.
    + eexists. rewrite lookup_insert_eq. repeat split; [done..|].
      intros port' Hne. by rewrite lookup_insert_ne.
Qed.

Lemma zip_replicate (cs : list string) (timeout : option num) :
  zip cs (replicate (length cs) timeout) = (λ name, (name, timeout)) <$> cs.
Proof. induction cs as [|name cs IH]; simpl; [done|]. by rewrite IH. Qed.

Lemma timeouts_after_const (timeout : option num) names :
  ∀ (m : gmap string (option num)) name,
  timeouts_after ((λ name, (name, timeout)) <$> names) m !! name =
    if decide (name ∈ names) then Some timeout else m !! name.
Proof.
  unfold timeouts_after.
  induction names as [|n names IH]; intros m name; simpl.
  - done.
  - rewrite IH. destruct (decide (name ∈ names)) as [Hin|Hnin].
    + rewrite decide_True; [done|by right].
    + destruct (decide (n = name)) as [->|Hne].
      * rewrite lookup_insert_eq. rewrite decide_True; [done|by left].
      * rewrite lookup_insert_ne by done.
        rewrite decide_False; [done|]. intros [?|?]%elem_of_cons; congruence.
Qed.

Lemma convert_timeouts_length cs (timeouts : timeouts_arg num) ts :
  convert_timeouts cs timeouts = Ok ts → length ts = length cs.
Proof.
  destruct timeouts as [timeout|ts']; simpl.
  - intros [= <-]. apply length_replicate.
  - case_decide as Hl; [done|]. by intros [= <-].
Qed.

(** The body of the constructors once the port is known to be free. *)
Lemma DataSocket_init_loop_ok cs port dx dy w :
  valid_codenames cs → DATA w !! port = None →
  DataSocket_init cs port dx dy w =
    UDPServer port
      (World (<[port := Dataset "data" cs (data_after (dx, dy) cs ∅) None]> (DATA w))
             (bound w)).
Proof.
  intros Hv Hfree. unfold DataSocket_init.
  case_decide as Hused; [rewrite Hfree in Hused; by destruct Hused|].
  erewrite DataSocket_loop_ok;
    [|intros; by apply check_name_valid|apply lookup_insert_eq].
  simpl. by rewrite insert_insert_eq.
Qed.

Lemma DateDataSocket_init_loop_ok cs port dx dy (timeouts : timeouts_arg num) ts w :
  valid_codenames cs → DATA w !! port = None →
  convert_timeouts cs timeouts = Ok ts →
  DateDataSocket_init cs port dx dy timeouts w =
    UDPServer port
      (World (<[port := Dataset "date" cs (data_after (dx, dy) cs ∅)
                           (Some (timeouts_after (zip cs ts) ∅))]> (DATA w))
             (bound w)).
Proof.
  intros Hv Hfree Hts. unfold DateDataSocket_init.
  case_decide as Hused; [rewrite Hfree in Hused; by destruct Hused|].
  rewrite Hts.
  assert ((zip cs ts).*1 = cs) as Hfst.
  { apply fst_zip. by rewrite (convert_timeouts_length _ _ _ Hts). }
  erewrite DateDataSocket_loop_ok;
    [|rewrite Hfst; intros; by apply check_name_valid|apply lookup_insert_eq|done].
  simpl. by rewrite insert_insert_eq, Hfst.
Qed.

(** A constructor that returns has registered the codenames it was given. *)
Lemma DataSocket_init_registered cs port dx dy w :
  (DataSocket_init cs port dx dy w).1 = Ok () →
  ∃ d, DATA (DataSocket_init cs port dx dy w).2 !! port = Some d ∧ codenames d = cs.
Proof.
  unfold DataSocket_init. case_decide; [done|].
  match goal with |- context [DataSocket_loop _ _ ?p _ (<[port := ?d1]> ?D)] =>
    destruct (DataSocket_loop_keeps cs port p cs (<[port := d1]> D) d1
                (lookup_insert_eq _ _ _)) as (d' & Hd' & _ & Hc & _)
  end.
  destruct (DataSocket_loop _ _ _ _ _) as [[[]|e] D']; [|done].
  unfold UDPServer. case_decide; [done|]. intros _. by exists d'.
Qed.

Lemma DateDataSocket_init_registered cs port dx dy (timeouts : timeouts_arg num) w :
  (DateDataSocket_init cs port dx dy timeouts w).1 = Ok () →
  ∃ d, DATA (DateDataSocket_init cs port dx dy timeouts w).2 !! port = Some d
       ∧ codenames d = cs.
Proof.
  unfold DateDataSocket_init. case_decide; [done|].
  destruct (convert_timeouts cs timeouts) as [ts|e]; [|done].
  match goal with |- context [DateDataSocket_loop _ _ ?p ?ps (<[port := ?d1]> ?D)] =>
    destruct (DateDataSocket_loop_keeps cs port p ps (<[port := d1]> D) d1
                (lookup_insert_eq _ _ _)) as (d' & Hd' & _ & Hc & _)
  end.
  destruct (DateDataSocket_loop _ _ _ _ _) as [[[]|e] D']; [|done].
  unfold UDPServer. case_decide; [done|]. intros _. by exists d'.
Qed.

(** The loop of [DateDataSocket.__init__] raises nothing but the two
    ValueErrors of [check_name]. *)
Lemma DateDataSocket_loop_raises cs port p (pairs : list (string * option num)) e :
  ∀ D d tm, D !! port = Some d → timeouts d = Some tm →
  (DateDataSocket_loop cs port p pairs D).1 = Raise e →
  (∃ name, e = ValueError (unique_message name)) ∨ (∃ char, e = ValueError (char_message char)).
Proof.
  induction pairs as [|[name timeout] pairs IH]; intros D d tm Hd Htm; simpl; [done|].
  destruct (check_name cs name) as [[]|e'] eqn:Hchk; simpl.
  - rewrite (setitem_data_Some _ _ _ _ _ Hd).
    erewrite setitem_timeouts_Some; [|apply lookup_insert_eq|done].
    eapply IH; [apply lookup_insert_eq|done].
  - intros [= ->]. unfold check_name in Hchk.
    case_decide; [left; exists name; congruence|].
    destruct (List.find _ BAD_CHARS) as [char|]; [|done].
    right. exists char. congruence.
Qed.

(** C9: on a port that is free, the constructor given a list of timeouts
    raises the ValueError of the length check exactly when the length of
    the list differs from the number of codenames, before anything is
    registered, and given a single timeout it never raises that error.
    With codenames that pass the checks and a port that can be bound, the
    constructor given a list fails exactly when the lengths differ, and
    given a single timeout it returns, the timeouts of the dataset holding
    that timeout for every codename and nothing else. *)
Theorem timeouts_length_check cs port dx dy w :
  DATA w !! port = None →
  (∀ ts,
     ((DateDataSocket_init cs port dx dy (Several ts) w).1
        = Raise (ValueError timeouts_message) ↔ length ts ≠ length cs) ∧
     (length ts ≠ length cs →
        (DateDataSocket_init cs port dx dy (Several ts) w).2 = w)) ∧
  (∀ timeout,
     (DateDataSocket_init cs port dx dy (Single timeout) w).1
       ≠ Raise (ValueError timeouts_message)) ∧
  (valid_codenames cs → port ∉ bound w →
     (∀ ts, (∃ e, (DateDataSocket_init cs port dx dy (Several ts) w).1 = Raise e)
              ↔ length ts ≠ length cs) ∧
     (∀ timeout, ∃ w' d tm,
        DateDataSocket_init cs port dx dy (Single timeout) w = (Ok (), w') ∧
        DATA w' !! port = Some d ∧ timeouts d = Some tm ∧
        ∀ name, tm !! name = if decide (name ∈ cs) then Some timeout else None)).
Proof.
  intros Hfree.
  assert (∀ ts, length ts ≠ length cs →
          DateDataSocket_init cs port dx dy (Several ts) w
            = (Raise (ValueError timeouts_message), w)) as Hfail.
  { intros ts Hl. unfold DateDataSocket_init.
    case_decide as Hused; [rewrite Hfree in Hused; by destruct Hused|].
    simpl. by rewrite decide_True. }
  assert (∀ arg ts, convert_timeouts cs arg = Ok ts →
          (DateDataSocket_init cs port dx dy arg w).1
            ≠ Raise (ValueError timeouts_message)) as Hother.
  { intros arg ts Hts. unfold DateDataSocket_init.
    case_decide as Hused; [rewrite Hfree in Hused; by destruct Hused|].
    rewrite Hts.
    destruct (DateDataSocket_loop _ _ _ _ _) as [[[]|e] D'] eqn:Hloop; simpl.
    - unfold UDPServer. by case_decide.
    - intros [= ->].
      destruct (DateDataSocket_loop_raises cs port (dx, dy) (zip cs ts)
                  (ValueError timeouts_message) _ (Dataset "date" cs ∅ (Some ∅)) ∅
                  (lookup_insert_eq (DATA w) port _) eq_refl)
        as [[name Hn]|[char Hc]]; [by rewrite Hloop|done..]. }
  split; [|split].
  - intros ts. split; [split|].
    + intros Hraise Hl. eapply (Hother (Several ts) ts); [|done].
      simpl. rewrite decide_False; [done|by intros ?].
    + intros Hl. by rewrite (Hfail ts Hl).
    + intros Hl. by rewrite (Hfail ts Hl).
  - intros timeout. by eapply (Hother (Single timeout)).
  - intros Hv Hunbound. split.
    + intros ts. split.
      * intros [e He] Hl.
        rewrite (DateDataSocket_init_loop_ok cs port dx dy (Several ts) ts w) in He;
          [|done..|simpl; rewrite decide_False; [done|by intros ?]].
        unfold UDPServer in He. by rewrite decide_False in He.
      * intros Hl. rewrite (Hfail ts Hl). by eexists.
    + intros timeout.
      rewrite (DateDataSocket_init_loop_ok cs port dx dy (Single timeout) _ w Hv Hfree eq_refl).
      unfold UDPServer. rewrite decide_False by done.
      eexists _, _, _. split; [done|]. simpl. rewrite lookup_insert_eq.
      split; [done|]. split; [done|].
      intros name. rewrite zip_replicate, timeouts_after_const.
      by rewrite lookup_empty.
Qed.

End Constructors.

Lemma timeouts_length_check_witness :
  ((DateDataSocket_init ["temp"; "pressure"] 9001 (PyInt 0) (PyInt 47)
      (Several [Some (PyInt 5)]) (World ∅ ∅)).1
     = Raise (ValueError timeouts_message)
   ↔ length [Some (PyInt 5)] ≠ length ["temp"; "pressure"]) ∧
  ((∃ e, (DateDataSocket_init ["temp"; "pressure"] 9001 (PyInt 0) (PyInt 47)
            (Several [Some (PyInt 5); None]) (World ∅ ∅)).1 = Raise e)
   ↔ length [Some (PyInt 5); None] ≠ length ["temp"; "pressure"]) ∧
  ∃ w' d tm,
    DateDataSocket_init ["temp"; "pressure"] 9001 (PyInt 0) (PyInt 47)
      (Single (Some (PyFloat 2))) (World ∅ ∅) = (Ok (), w') ∧
    DATA w' !! 9001%Z = Some d ∧ timeouts d = Some tm ∧
    ∀ name, tm !! name
            = if decide (name ∈ ["temp"; "pressure"]) then Some (Some (PyFloat 2)) else None.
Proof.
  assert (DATA (World ∅ ∅ : world number) !! 9001%Z = None) as Hfree by reflexivity.
  destruct (timeouts_length_check ["temp"; "pressure"] 9001 (PyInt 0) (PyInt 47)
              (World ∅ ∅) Hfree) as (Hlist & _ & Hvalid).
  destruct Hvalid as [Hiff Hsingle].
  - apply (bool_decide_unpack _). vm_compute. exact I.
  - apply (bool_decide_unpack _). vm_compute. exact I.
  - split; [exact (proj1 (Hlist [Some (PyInt 5)]))|].
    split; [exact (Hiff [Some (PyInt 5); None]) | exact (Hsingle (Some (PyFloat 2)))].
Defined.

(** C2, as far as the code goes: both constructors put the entry of the port
    into [DATA] before they check the names.  When a name is present twice,
    or holds a character of [BAD_CHARS], the ValueError leaves that entry
    behind, with the points set so far: no socket is bound, yet the port is
    registered, and the next constructor on the port is refused as if a
    server existed. *)
Theorem init_failure_leaves_entry :
  let w : world number := World ∅ ∅ in
  let r := DataSocket_init ["b"; "a"; "a"] 9000 (PyInt 47) (PyInt 47) w in
  let r' := DateDataSocket_init ["ok"; "b#d"] 9001 (PyInt 0) (PyInt 47) (Single None) w in
  r.1 = Raise (ValueError "Codenames must be unique; 'a' is present more than once") ∧
  DATA r.2 !! 9000%Z
    = Some (Dataset "data" ["b"; "a"; "a"] {["b" := (PyInt 47, PyInt 47)]} None) ∧
  bound r.2 = ∅ ∧
  (DataSocket_init ["b"; "a"] 9000 (PyInt 47) (PyInt 47) r.2).1
    = Raise (ValueError "A UDP server already exists on port: 9000") ∧
  r'.1 = Raise (ValueError "The character '#' is not allowed in the codenames") ∧
  DATA r'.2 !! 9001%Z
    = Some (Dataset "date" ["ok"; "b#d"] {["ok" := (PyInt 0, PyInt 47)]}
              (Some {["ok" := None]})) ∧
  bound r'.2 = ∅.
Proof. vm_compute. repeat split; reflexivity. Qed.

(** ** Stopping a publisher *)

(** C6 fails as stated: after [stop] the entry is gone from [DATA] but the
    socket of the stopped publisher is still bound, and a new publisher on
    the port is refused by the bind. *)
Lemma stop_keeps_socket_bound :
  let w1 := (DataSocket_init ["a"] 9000 (PyInt 47) (PyInt 47) (World ∅ ∅)).2 in
  let r := DataSocket_stop 9000 w1 in
  r.1 = Ok () ∧ DATA r.2 !! 9000%Z = None ∧ bound r.2 = {[9000%Z]} ∧
  (DataSocket_init ["a"] 9000 (PyInt 47) (PyInt 47) r.2).1 = Raise SocketError.
Proof. vm_compute. repeat split; reflexivity. Qed.

Section Stop.
Context {num : Type}.
Implicit Types (w : world num) (d : dataset num) (port : Z) (cs : list string).

(** C6, amended: [stop] of either publisher removes the entry of the port
    from [DATA], leaves the other entries alone, and leaves the socket as
    it was.  With codenames that pass the checks, a new publisher on the
    port is refused with socket.error as long as the old socket is bound,
    and is constructed once that socket has been closed. *)
Theorem stop_frees_registry_entry port w d :
  DATA w !! port = Some d →
  let w' := (DataSocket_stop port w).2 in
  (DataSocket_stop port w).1 = Ok () ∧
  DateDataSocket_stop port w = DataSocket_stop port w ∧
  DATA w' = delete port (DATA w) ∧
  DATA w' !! port = None ∧
  bound w' = bound w ∧
  ∀ cs dx dy, valid_codenames cs →
    (port ∈ bound w → (DataSocket_init cs port dx dy w').1 = Raise SocketError) ∧
    (DataSocket_init cs port dx dy (server_close port w')).1 = Ok () ∧
    ∀ arg ts, convert_timeouts cs arg = Ok ts →
      (port ∈ bound w →
         (DateDataSocket_init cs port dx dy arg w').1 = Raise SocketError) ∧
      (DateDataSocket_init cs port dx dy arg (server_close port w')).1 = Ok ().
Proof.
  intros Hd. unfold DataSocket_stop, DateDataSocket_stop. rewrite Hd. simpl.
  assert (delete port (DATA w) !! port = None) as Hfree by apply lookup_delete_eq.
  do 5 (split; [done|]).
  intros cs dx dy Hv. split; [|split].
  - intros Hb. rewrite (DataSocket_init_loop_ok cs port dx dy (World _ _) Hv Hfree).
    unfold UDPServer. simpl. by rewrite decide_True.
  - unfold server_close. simpl.
    rewrite (DataSocket_init_loop_ok cs port dx dy (World _ _) Hv Hfree).
    unfold UDPServer. simpl. rewrite decide_False; [done|].
      rewrite elem_of_difference, elem_of_singleton. by intros [_ ?].
  - intros arg ts Hts. split.
    + intros Hb. rewrite (DateDataSocket_init_loop_ok cs port dx dy arg ts (World _ _) Hv Hfree Hts).
      unfold UDPServer. simpl. by rewrite decide_True.
    + unfold server_close. simpl.
      rewrite (DateDataSocket_init_loop_ok cs port dx dy arg ts (World _ _) Hv Hfree Hts).
      unfold UDPServer. simpl. rewrite decide_False; [done|].
      rewrite elem_of_difference, elem_of_singleton. by intros [_ ?].
Qed.

End Stop.

Lemma stop_frees_registry_entry_witness :
  let w := (DataSocket_init ["a"] 9000 (PyInt 47) (PyInt 47) (World ∅ ∅)).2 in
  (DataSocket_stop 9000 w).1 = Ok () ∧
  DATA (DataSocket_stop 9000 w).2 !! 9000%Z = None ∧
  (DataSocket_init ["b"] 9000 (PyInt 0) (PyInt 0) (DataSocket_stop 9000 w).2).1
    = Raise SocketError ∧
  (DataSocket_init ["b"] 9000 (PyInt 0) (PyInt 0)
     (server_close 9000 (DataSocket_stop 9000 w).2)).1 = Ok ().
Proof.
  intros w.
  assert (DATA w !! 9000%Z = Some (Dataset "data" ["a"] {["a" := (PyInt 47, PyInt 47)]} None))
    as Hd by reflexivity.
  destruct (stop_frees_registry_entry 9000 w _ Hd) as (Hok & _ & _ & Hfree & _ & Hnew).
  assert (valid_codenames ["b"]) as Hv by (apply (bool_decide_unpack _); vm_compute; exact I).
  destruct (Hnew ["b"] (PyInt 0) (PyInt 0) Hv) as (Hbound & Hclosed & _).
  split; [exact Hok|]. split; [exact Hfree|]. split; [|exact Hclosed].
  apply Hbound. apply (bool_decide_unpack _). vm_compute. exact I.
Defined.


(** ** set_point *)

Lemma append_assoc (s t u : string) : (s +:+ t) +:+ u = s +:+ t +:+ u.
Proof.
  induction s as [|a s IH]; [done|].
  change (String a ((s +:+ t) +:+ u) = String a (s +:+ t +:+ u)). by f_equal.
Qed.

Lemma append_nil_r (s : string) : s +:+ "" = s.
Proof.
  induction s as [|a s IH]; [done|].
  change (String a (s +:+ "") = String a s). by f_equal.
Qed.

Lemma str_join_elem (sep x : string) (l : list string) :
  x ∈ l → substring x (str_join sep l).
Proof.
  induction l as [|y l IH]; [by intros ?%elem_of_nil|].
  intros [->|Hin]%elem_of_cons; simpl.
  - destruct l; [exists "", ""; simpl; by rewrite append_nil_r|].
    by exists "", (sep +:+ str_join sep (s :: l)).
  - destruct l as [|z l]; [by apply elem_of_nil in Hin|].
    destruct (IH Hin) as (pre & post & ->).
    exists (y +:+ sep +:+ pre), post. by rewrite !append_assoc.
Qed.

Section SetPoint.
Context {num : Type} `{PyNumber num} `{!PyJson num}.
Implicit Types (DATA : gmap Z (dataset num)) (d : dataset num) (p : point num).
Implicit Types (time : nat → num) (now : num) (port : Z) (w : world num).

(** The dataset of the port after [DATA[port]['data'][codename] = p]. *)
Let updated d (codename : string) p : dataset num :=
  Dataset (type d) (codenames d) (<[codename := p]> (data d)) (timeouts d).

Lemma set_point_eq port codename p w d :
  DATA w !! port = Some d →
  DataSocket_set_point port codename p w
    = (Ok (), World (<[port := updated d codename p]> (DATA w)) (bound w)).
Proof.
  intros Hd. unfold DataSocket_set_point. by rewrite (setitem_data_Some _ _ _ _ _ Hd).
Qed.

Lemma updated_ok d codename p : dataset_ok d → dataset_ok (updated d codename p).
Proof.
  intros (Hv & Hdata & Ht). split; [done|]. split; [|done]. simpl.
  eapply Forall_impl; [exact Hdata|]. intros name [q Hq]. simpl.
  destruct (decide (codename = name)) as [->|Hne].
  - rewrite lookup_insert_eq. by eexists.
  - rewrite lookup_insert_ne by done. by eexists.
Qed.

Lemma old_data_updated now DATA port d codename p name :
  DATA !! port = Some d → name ≠ codename →
  _old_data now (<[port := updated d codename p]> DATA) port name
    = _old_data now DATA port name.
Proof.
  intros Hd Hne. unfold _old_data, getitem. rewrite lookup_insert_eq, Hd. simpl.
  by rewrite lookup_insert_ne.
Qed.

Lemma data_of_updated DATA port d codename p name :
  DATA !! port = Some d → name ≠ codename →
  data_of (<[port := updated d codename p]> DATA) port name = data_of DATA port name.
Proof.
  intros Hd Hne. unfold data_of, getitem. rewrite lookup_insert_eq, Hd. simpl.
  by rewrite lookup_insert_ne.
Qed.

Lemma for_codenames_ext {A} (body1 body2 : nat → string → result A) names :
  (∀ i name, name ∈ names → body1 i name = body2 i name) →
  ∀ i, for_codenames body1 i names = for_codenames body2 i names.
Proof.
  induction names as [|name names IH]; intros Hbody i; simpl; [done|].
  rewrite Hbody by left.
  by rewrite (IH (λ j n Hn, Hbody j n (list_elem_of_further _ _ _ Hn))).
Qed.

(** The replies built from the codenames do not see a point stored under
    a name that is not a codename. *)
Lemma all_values_updated time DATA port d codename p command :
  DATA !! port = Some d → codename ∉ codenames d → command ∈ codename_driven →
  _all_values time (<[port := updated d codename p]> DATA) port command
    = _all_values time DATA port command.
Proof.
  intros Hd Hnin Hcmd.
  assert (∀ name, name ∈ codenames d → name ≠ codename) as Hne by (intros ? ? ->; done).
  unfold codename_driven in Hcmd. unfold _all_values, getitem.
  rewrite lookup_insert_eq, Hd.
  repeat (apply elem_of_cons in Hcmd as [->|Hcmd]); [..|by apply elem_of_nil in Hcmd];
    simpl; try done; f_equal; apply for_codenames_ext; intros i name Hin;
    rewrite (old_data_updated _ _ _ _ _ _ _ Hd (Hne _ Hin));
    by rewrite (data_of_updated _ _ _ _ _ _ Hd (Hne _ Hin)).
Qed.

Lemma json_wn_loop_lookup time DATA port codename names :
  codename ∉ names →
  ∀ i (datacopy out : gmap string (pyval num)),
  json_wn_loop time DATA port i names datacopy = Ok out →
  out !! codename = datacopy !! codename.
Proof.
  induction names as [|name names IH]; intros Hnin i datacopy out; simpl.
  - by intros [= <-].
  - apply not_elem_of_cons in Hnin as [Hne Hnin].
    destruct (_old_data _ _ _ _) as [stale|e]; simpl; [|done].
    intros Hout. rewrite (IH Hnin _ _ _ Hout).
    destruct stale; [|done]. by rewrite lookup_insert_ne.
Qed.

Lemma updated_ascii d codename p :
  ascii_names d → is_ascii codename = true → ascii_names (updated d codename p).
Proof.
  intros [Hcs Hkeys] Hname. split; [done|]. simpl. by apply map_Forall_insert_2.
Qed.


End SetPoint.


(** ** The order of the codenames *)

Section Order.
Context {num : Type} `{PyNumber num} `{!PyJson num}.
Implicit Types (d : dataset num) (p : point num) (w : world num) (port : Z).

Lemma set_point_keeps_codenames port' codename p w port d :
  DATA w !! port = Some d →
  ∃ d', DATA (DataSocket_set_point port' codename p w).2 !! port = Some d'
        ∧ codenames d' = codenames d.
Proof.
  intros Hd. unfold DataSocket_set_point, setitem_data, getitem.
  destruct (DATA w !! port') as [d0|] eqn:Hd0; simpl; [|by exists d].
  destruct (decide (port' = port)) as [->|Hne].
  - rewrite lookup_insert_eq. eexists. split; [done|]. simpl. congruence.
  - rewrite lookup_insert_ne by done. by exists d.
Qed.

Lemma perform_keeps_codenames (a : activity num) w port d :
  DATA w !! port = Some d →
  ∃ d', DATA (perform w a) !! port = Some d' ∧ codenames d' = codenames d.
Proof.
  intros Hd. destruct a as [port' codename p|now port' codename value|time port' command];
    simpl; [by apply set_point_keeps_codenames| |by exists d].
  by apply (set_point_keeps_codenames port' codename (now, value)).
Qed.

Lemma perform_all_keeps_codenames (acts : list (activity num)) :
  ∀ w port d, DATA w !! port = Some d →
  ∃ d', DATA (perform_all w acts) !! port = Some d' ∧ codenames d' = codenames d.
Proof.
  unfold perform_all. induction acts as [|a acts IH]; intros w port d Hd; simpl.
  - by exists d.
  - destruct (perform_keeps_codenames a w port d Hd) as (d1 & Hd1 & Hc1).
    destruct (IH _ _ _ Hd1) as (d' & Hd' & Hc'). exists d'. split; [done|]. congruence.
Qed.

Lemma constructed_registered cs port w w' :
  constructed cs port w w' → ∃ d, DATA w' !! port = Some d ∧ codenames d = cs.
Proof.
  intros [(dx & dy & Hinit) | (dx & dy & arg & Hinit)].
  - destruct (DataSocket_init_registered cs port dx dy w) as (d & Hd & Hc);
      rewrite Hinit in *; [done|]. by exists d.
  - destruct (DateDataSocket_init_registered cs port dx dy arg w) as (d & Hd & Hc);
      rewrite Hinit in *; [done|]. by exists d.
Qed.


End Order.


(** ** Setting a point and reading it back *)

Section RoundTrip.
Context {num : Type} `{PyNumber num} `{!PyJson num}.
Implicit Types (d : dataset num) (w : world num) (port : Z) (time : nat → num).

(** C7: [x] and [y] being the floats 3.0 and 4.0, which Python prints as
    3.0 and 4.0, after [set_point(name, (x, y))] on a codename of the
    dataset that is not stale the request name#raw is answered 3.0,4.0 and
    the request name#json is answered [3.0, 4.0]. *)
Theorem set_point_round_trip time port name (x y : num) w d :
  DATA w !! port = Some d → dataset_ok d → name ∈ codenames d →
  num_format x = "3.0" → num_format y = "4.0" →
  num_json x = "3.0" → num_json y = "4.0" →
  let w' := (DataSocket_set_point port name (x, y) w).2 in
  _old_data (time 0) (DATA w') port name = Ok false →
  DateDataSocket_set_point port name (x, y) w = DataSocket_set_point port name (x, y) w ∧
  handle time (DATA w') port (name +:+ "#raw") = Ok "3.0,4.0" ∧
  handle time (DATA w') port (name +:+ "#json") = Ok "[3.0, 4.0]".
Proof.
  intros Hd ((_ & Hnames) & _) Hin Hfx Hfy Hjx Hjy w'. subst w'.
  rewrite (set_point_eq _ _ _ _ _ Hd). cbn [fst snd DATA bound]. intros Hfresh.
  split; [by rewrite <-(set_point_eq _ _ _ _ _ Hd)|].
  rewrite Forall_forall in Hnames.
  pose proof (name_ok_no_hash name (Hnames name Hin)) as Hhash.
  match goal with |- context [handle _ ?D _ _] => set (D' := D) in * end.
  assert (∃ d', D' !! port = Some d' ∧ data d' !! name = Some (x, y))
    as (d' & Hd' & Hp).
  { eexists. subst D'. rewrite lookup_insert_eq. split; [done|]. apply lookup_insert_eq. }
  assert (bool_decide (is_Some (data d' !! name)) = true) as Hknown.
  { apply bool_decide_eq_true. by eexists. }
  unfold handle. split.
  - rewrite decide_True by (rewrite str_count_app, Hhash; done).
    unfold _single_value. rewrite (str_split_sep "#" name "raw" Hhash eq_refl).
    simpl. rewrite (in_data_eq _ _ _ _ Hd'), Hknown. simpl.
    rewrite Hfresh. simpl. rewrite (data_of_Some _ _ _ _ _ Hd' Hp). simpl.
    unfold format_point. simpl. by rewrite Hfx, Hfy.
  - rewrite decide_True by (rewrite str_count_app, Hhash; done).
    unfold _single_value. rewrite (str_split_sep "#" name "json" Hhash eq_refl).
    simpl. rewrite (in_data_eq _ _ _ _ Hd'), Hknown. simpl.
    rewrite Hfresh. simpl. rewrite (data_of_Some _ _ _ _ _ Hd' Hp). simpl.
    rewrite dumps_point. simpl. by rewrite Hjx, Hjy.
Qed.

End RoundTrip.

Lemma set_point_round_trip_witness :
  let w : world number := World demo_DATA {[9000%Z; 9001%Z]} in
  let w' := (DataSocket_set_point 9001 "temp" (PyFloat 3, PyFloat 4) w).2 in
  DateDataSocket_set_point 9001 "temp" (PyFloat 3, PyFloat 4) w
    = DataSocket_set_point 9001 "temp" (PyFloat 3, PyFloat 4) w ∧
  handle (at_time (PyFloat 8)) (DATA w') 9001 "temp#raw" = Ok "3.0,4.0" ∧
  handle (at_time (PyFloat 8)) (DATA w') 9001 "temp#json" = Ok "[3.0, 4.0]".
Proof.
  intros w w'.
  apply (set_point_round_trip (at_time (PyFloat 8)) 9001 "temp" (PyFloat 3) (PyFloat 4)
           w demo_date); try reflexivity.
  - apply (bool_decide_unpack _). vm_compute. exact I.
  - apply (bool_decide_unpack _). vm_compute. exact I.
Defined.

(** * Further properties of the module *)

(** ** What the constructors accept and what they build *)

Lemma NoDup_list_count (l : list string) :
  (∀ x, x ∈ l → list_count x l ≤ 1) → NoDup l.
Proof.
  induction l as [|y l IH]; intros Hcount; [constructor|].
  constructor.
  - intros Hin. pose proof (list_count_in y l Hin).
    specialize (Hcount y (list_elem_of_here _ _)). simpl in Hcount.
    rewrite decide_True in Hcount by done. lia.
  - apply IH. intros x Hx.
    specialize (Hcount x (list_elem_of_further _ _ _ Hx)). simpl in Hcount. lia.
Qed.

Section Construction.
Context {num : Type}.
Implicit Types (D : gmap Z (dataset num)) (d : dataset num) (p : point num).
Implicit Types (w : world num) (port : Z) (names cs : list string).

Lemma data_after_lookup p names :
  ∀ (m : gmap string (point num)) name,
  data_after p names m !! name = if decide (name ∈ names) then Some p else m !! name.
Proof.
  unfold data_after.
  induction names as [|n names IH]; intros m name; simpl; [done|].
  rewrite IH. destruct (decide (name ∈ names)) as [Hin|Hnin].
  - rewrite decide_True; [done|by right].
  - destruct (decide (n = name)) as [->|Hne].
    + rewrite lookup_insert_eq. rewrite decide_True; [done|by left].
    + rewrite lookup_insert_ne by done.
      rewrite decide_False; [done|]. intros [?|?]%elem_of_cons; congruence.
Qed.

Lemma data_after_app p names1 names2 (m : gmap string (point num)) :
  data_after p (names1 ++ names2) m = data_after p names2 (data_after p names1 m).
Proof. unfold data_after. apply foldl_app. Qed.

Lemma timeouts_after_not_in (pairs : list (string * option num)) :
  ∀ (m : gmap string (option num)) name,
  name ∉ pairs.*1 → timeouts_after pairs m !! name = m !! name.
Proof.
  unfold timeouts_after.
  induction pairs as [|[n t] pairs IH]; intros m name Hnin; simpl; [done|].
  simpl in Hnin. apply not_elem_of_cons in Hnin as [Hne Hnin].
  rewrite IH by done. by rewrite lookup_insert_ne.
Qed.

Lemma timeouts_after_lookup (pairs : list (string * option num)) :
  NoDup pairs.*1 →
  ∀ (m : gmap string (option num)) name timeout,
  (name, timeout) ∈ pairs → timeouts_after pairs m !! name = Some timeout.
Proof.
  induction pairs as [|[n t] pairs IH]; intros Hnd m name timeout Hin;
    [by apply elem_of_nil in Hin|].
  simpl in Hnd. apply NoDup_cons in Hnd as [Hnin Hnd].
  apply elem_of_cons in Hin as [[= -> ->]|Hin].
  - change (timeouts_after ((n, t) :: pairs) m)
      with (timeouts_after pairs (<[n := t]> m)).
    rewrite timeouts_after_not_in by done. apply lookup_insert_eq.
  - change (timeouts_after ((n, t) :: pairs) m)
      with (timeouts_after pairs (<[n := t]> m)).
    by apply IH.
Qed.

(** A loop that returns has checked every name. *)
Lemma DataSocket_loop_checked cs port p names :
  ∀ D, (DataSocket_loop cs port p names D).1 = Ok () →
  ∀ name, name ∈ names → check_name cs name = Ok ().
Proof.
  induction names as [|n names IH]; intros D Hok name Hin;
    [by apply elem_of_nil in Hin|].
  simpl in Hok. destruct (check_name cs n) as [[]|e] eqn:Hchk; [|done].
  destruct (setitem_data D port n p) as [D'|e]; [|done].
  apply elem_of_cons in Hin as [->|Hin]; [done|]. by eapply IH.
Qed.

Lemma DateDataSocket_loop_checked cs port p (pairs : list (string * option num)) :
  ∀ D, (DateDataSocket_loop cs port p pairs D).1 = Ok () →
  ∀ name, name ∈ pairs.*1 → check_name cs name = Ok ().
Proof.
  induction pairs as [|[n t] pairs IH]; intros D Hok name Hin;
    [by apply elem_of_nil in Hin|].
  simpl in Hok. destruct (check_name cs n) as [[]|e] eqn:Hchk; [|done].
  destruct (setitem_data D port n p) as [D'|e]; [|done].
  destruct (setitem_timeouts D' port n t) as [D''|e]; [|done].
  simpl in Hin. apply elem_of_cons in Hin as [->|Hin]; [done|]. by eapply IH.
Qed.

Lemma checked_valid cs :
  (∀ name, name ∈ cs → check_name cs name = Ok ()) → valid_codenames cs.
Proof.
  intros Hchk. split.
  - apply NoDup_list_count. intros x Hx.
    by destruct (check_name_Ok cs x (Hchk x Hx)).
  - apply Forall_forall. intros x Hx.
    by destruct (check_name_Ok cs x (Hchk x Hx)).
Qed.

(** X1: on a port that is neither registered nor bound, [DataSocket]
    is constructed exactly when the codenames are free of duplicates and of
    the characters of [BAD_CHARS], and [DateDataSocket] exactly when, in
    addition, its timeouts are a single value or a list as long as the
    codenames. *)
Theorem constructors_accept_valid_names cs port dx dy (arg : timeouts_arg num) w :
  DATA w !! port = None → port ∉ bound w →
  ((DataSocket_init cs port dx dy w).1 = Ok () ↔ valid_codenames cs) ∧
  ((DateDataSocket_init cs port dx dy arg w).1 = Ok ()
     ↔ valid_codenames cs ∧ ∃ ts, convert_timeouts cs arg = Ok ts).
Proof.
  intros Hfree Hunbound. split; split.
  - unfold DataSocket_init.
    case_decide as Hused; [done|].
    destruct (DataSocket_loop _ _ _ _ _) as [[[]|e] D'] eqn:Hloop; [|done].
    intros _. apply checked_valid. eapply DataSocket_loop_checked. by rewrite Hloop.
  - intros Hv. rewrite (DataSocket_init_loop_ok cs port dx dy w Hv Hfree).
    unfold UDPServer. by rewrite decide_False.
  - unfold DateDataSocket_init.
    case_decide as Hused; [done|].
    destruct (convert_timeouts cs arg) as [ts|e] eqn:Hts; [|done].
    destruct (DateDataSocket_loop _ _ _ _ _) as [[[]|e] D'] eqn:Hloop; [|done].
    intros _. split; [|by exists ts]. apply checked_valid.
    assert ((zip cs ts).*1 = cs) as Hfst.
    { apply fst_zip. by rewrite (convert_timeouts_length _ _ _ Hts). }
    intros name Hin. rewrite <-Hfst in Hin.
    eapply DateDataSocket_loop_checked; [|exact Hin]. by rewrite Hloop.
  - intros [Hv [ts Hts]].
    rewrite (DateDataSocket_init_loop_ok cs port dx dy arg ts w Hv Hfree Hts).
    unfold UDPServer. by rewrite decide_False.
Qed.

(** X2: a [DataSocket] constructed on a free port leaves, under the port,
    a dataset of type 'data' with the codenames as given, no timeouts, and
    the default point for every codename and for no other name; the other
    ports of [DATA] are untouched and the port is now bound. *)
Theorem DataSocket_init_state cs port dx dy w :
  valid_codenames cs → DATA w !! port = None → port ∉ bound w →
  ∃ d, DataSocket_init cs port dx dy w
         = (Ok (), World (<[port := d]> (DATA w)) ({[port]} ∪ bound w)) ∧
       type d = "data" ∧ codenames d = cs ∧ timeouts d = None ∧
       ∀ name, data d !! name = if decide (name ∈ cs) then Some (dx, dy) else None.
Proof.
  intros Hv Hfree Hunbound.
  rewrite (DataSocket_init_loop_ok cs port dx dy w Hv Hfree).
  unfold UDPServer. simpl. rewrite decide_False by done.
  eexists. split; [done|]. simpl. do 3 (split; [done|]).
  intros name. by rewrite data_after_lookup, lookup_empty.
Qed.

(** X3: a [DateDataSocket] constructed with a list of timeouts leaves a
    dataset of type 'date' in which every codename has the default point
    and the timeout at its own position in the list, and no other name has
    a point or a timeout. *)
Theorem DateDataSocket_init_state cs port dx dy (ts : list (option num)) w :
  valid_codenames cs → DATA w !! port = None → port ∉ bound w →
  length ts = length cs →
  ∃ d tm, DateDataSocket_init cs port dx dy (Several ts) w
            = (Ok (), World (<[port := d]> (DATA w)) ({[port]} ∪ bound w)) ∧
       type d = "date" ∧ codenames d = cs ∧ timeouts d = Some tm ∧
       (∀ name, data d !! name = if decide (name ∈ cs) then Some (dx, dy) else None) ∧
       (∀ i name timeout, cs !! i = Some name → ts !! i = Some timeout →
          tm !! name = Some timeout) ∧
       (∀ name, name ∉ cs → tm !! name = None).
Proof.
  intros Hv Hfree Hunbound Hlen.
  assert (convert_timeouts cs (Several ts) = Ok ts) as Hts.
  { simpl. rewrite decide_False; [done|by intros ?]. }
  assert ((zip cs ts).*1 = cs) as Hfst by (apply fst_zip; lia).
  rewrite (DateDataSocket_init_loop_ok cs port dx dy _ ts w Hv Hfree Hts).
  unfold UDPServer. simpl. rewrite decide_False by done.
  eexists _, _. split; [done|]. simpl. do 3 (split; [done|]).
  split; [|split].
  - intros name. by rewrite data_after_lookup, lookup_empty.
  - intros i name timeout Hi Ht. apply timeouts_after_lookup.
    + rewrite Hfst. by destruct Hv.
    + apply list_elem_of_lookup. exists i. apply lookup_zip_with_Some.
      by exists name, timeout.
  - intros name Hnin. rewrite timeouts_after_not_in by (by rewrite Hfst).
    apply lookup_empty.
Qed.

End Construction.

(** ** What a refused construction leaves behind *)

Section Refusal.
Context {num : Type}.
Implicit Types (D : gmap Z (dataset num)) (d : dataset num) (p : point num).
Implicit Types (w : world num) (port : Z) (names cs pre rest : list string).

Lemma check_name_accepts cs name :
  list_count name cs ≤ 1 → name_ok name → check_name cs name = Ok ().
Proof.
  intros Hcount Hok. unfold check_name. case_decide; [lia|].
  unfold name_ok, BAD_CHARS in Hok.
  rewrite !Forall_cons in Hok. destruct Hok as (H1 & H2 & H3 & H4 & _).
  simpl. by rewrite H1, H2, H3, H4.
Qed.

Lemma check_name_rejects cs name :
  ¬ (list_count name cs ≤ 1 ∧ name_ok name) →
  ∃ message, check_name cs name = Raise (ValueError message) ∧
             (1 < list_count name cs → message = unique_message name).
Proof.
  intros Hbad. destruct (check_name cs name) as [[]|e] eqn:Hchk.
  - by apply check_name_Ok in Hchk.
  - unfold check_name in Hchk. case_decide.
    + injection Hchk as <-. by eexists.
    + destruct (List.find _ BAD_CHARS) as [char|]; [|done].
      injection Hchk as <-. eexists. split; [done|]. intros ?. lia.
Qed.

(** The loop of [DataSocket.__init__] run over names that pass the checks
    and then over the rest. *)
Lemma DataSocket_loop_app cs port p pre rest :
  (∀ name, name ∈ pre → check_name cs name = Ok ()) →
  ∀ D d, D !! port = Some d →
  DataSocket_loop cs port p (pre ++ rest) D =
    DataSocket_loop cs port p rest
      (<[port := Dataset (type d) (codenames d) (data_after p pre (data d)) (timeouts d)]> D).
Proof.
  induction pre as [|name pre IH]; intros Hchk D d Hd; simpl.
  - by rewrite dataset_eta, insert_id.
  - rewrite Hchk by left. rewrite (setitem_data_Some _ _ _ _ _ Hd).
    rewrite (IH (λ n Hn, Hchk n (list_elem_of_further _ _ _ Hn)) _ _
               (lookup_insert_eq _ _ _)).
    simpl. by rewrite insert_insert_eq.
Qed.

(** X4: when the codenames are [pre ++ bad :: rest], the names of [pre]
    pass the two checks and [bad] fails one, [DataSocket.__init__] raises a
    ValueError (the one about duplicates when [bad] is present more than
    once), binds no socket and leaves the port registered, with the
    codenames as given and a point for each name of [pre] only. *)
Theorem DataSocket_init_rejected pre bad rest port dx dy w :
  let cs := pre ++ bad :: rest in
  DATA w !! port = None →
  Forall (λ name, list_count name cs ≤ 1 ∧ name_ok name) pre →
  ¬ (list_count bad cs ≤ 1 ∧ name_ok bad) →
  ∃ message d,
    DataSocket_init cs port dx dy w
      = (Raise (ValueError message), World (<[port := d]> (DATA w)) (bound w)) ∧
    (1 < list_count bad cs → message = unique_message bad) ∧
    type d = "data" ∧ codenames d = cs ∧
    ∀ name, data d !! name = if decide (name ∈ pre) then Some (dx, dy) else None.
Proof.
  intros cs Hfree Hpre Hbad.
  destruct (check_name_rejects cs bad Hbad) as (message & Hchk & Hmsg).
  subst cs.
  exists message. eexists. split; [|split; [exact Hmsg|]].
  - unfold DataSocket_init.
    case_decide as Hused; [rewrite Hfree in Hused; by destruct Hused|].
    erewrite (DataSocket_loop_app _ port _ pre (bad :: rest));
      [|..|apply lookup_insert_eq].
    + simpl. rewrite Hchk. simpl. by rewrite insert_insert_eq.
    + intros name Hin. rewrite Forall_forall in Hpre.
      destruct (Hpre name Hin). by apply check_name_accepts.
  - simpl. do 2 (split; [done|]).
    intros name. by rewrite data_after_lookup, lookup_empty.
Qed.

Lemma init_on_registered_port cs port dx dy (arg : timeouts_arg num) w d :
  DATA w !! port = Some d →
  DataSocket_init cs port dx dy w = (Raise (ValueError (port_message port)), w) ∧
  DateDataSocket_init cs port dx dy arg w = (Raise (ValueError (port_message port)), w).
Proof.
  intros Hd. unfold DataSocket_init, DateDataSocket_init.
  rewrite !decide_True; [done|by eexists..].
Qed.

(** X5: when the port is free in [DATA] but its socket cannot be bound,
    either constructor raises socket.error after it has registered the
    port: the entry stays in [DATA], and every later constructor on the port
    is refused with the ValueError for a port in use, the state being left
    as it is. *)
Theorem bind_failure_leaves_entry cs port dx dy (arg : timeouts_arg num) ts w :
  valid_codenames cs → DATA w !! port = None → port ∈ bound w →
  convert_timeouts cs arg = Ok ts →
  ∀ r, r = DataSocket_init cs port dx dy w ∨ r = DateDataSocket_init cs port dx dy arg w →
  r.1 = Raise SocketError ∧ is_Some (DATA r.2 !! port) ∧ bound r.2 = bound w ∧
  ∀ cs' dx' dy' arg',
    DataSocket_init cs' port dx' dy' r.2 = (Raise (ValueError (port_message port)), r.2) ∧
    DateDataSocket_init cs' port dx' dy' arg' r.2
      = (Raise (ValueError (port_message port)), r.2).
Proof.
  intros Hv Hfree Hbound Hts r Hr.
  assert (∃ d, r = (Raise SocketError, World (<[port := d]> (DATA w)) (bound w)))
    as [d ->].
  { destruct Hr as [-> | ->].
    - rewrite (DataSocket_init_loop_ok cs port dx dy w Hv Hfree).
      unfold UDPServer. simpl. rewrite decide_True by done. by eexists.
    - rewrite (DateDataSocket_init_loop_ok cs port dx dy arg ts w Hv Hfree Hts).
      unfold UDPServer. simpl. rewrite decide_True by done. by eexists. }
  simpl. split; [done|]. split; [rewrite lookup_insert_eq; by eexists|].
  split; [done|]. intros cs' dx' dy' arg'.
  eapply init_on_registered_port. simpl. apply lookup_insert_eq.
Qed.

(** A constructor that returns found the port free, touched no other
    port of [DATA] and bound the port. *)
Lemma constructed_frame cs port w w' :
  constructed cs port w w' →
  DATA w !! port = None ∧
  (∀ port', port' ≠ port → DATA w' !! port' = DATA w !! port') ∧
  bound w' = {[port]} ∪ bound w.
Proof.
  intros [(dx & dy & Hinit) | (dx & dy & arg & Hinit)].
  - unfold DataSocket_init in Hinit. case_decide as Hused; [done|].
    apply eq_None_not_Some in Hused.
    match type of Hinit with context [DataSocket_loop _ _ ?p _ (<[port := ?d1]> ?D)] =>
      destruct (DataSocket_loop_keeps cs port p cs (<[port := d1]> D) d1
                  (lookup_insert_eq _ _ _)) as (d' & _ & _ & _ & Hother)
    end.
    destruct (DataSocket_loop _ _ _ _ _) as [[[]|e] D']; [|done].
    unfold UDPServer in Hinit. case_decide; [done|]. injection Hinit as <-.
    simpl in *. split; [done|]. split; [|done].
    intros port' Hne. rewrite Hother by done. by rewrite lookup_insert_ne.
  - unfold DateDataSocket_init in Hinit. case_decide as Hused; [done|].
    apply eq_None_not_Some in Hused.
    destruct (convert_timeouts cs arg) as [ts|e]; [|done].
    match type of Hinit with
      context [DateDataSocket_loop _ _ ?p ?ps (<[port := ?d1]> ?D)] =>
      destruct (DateDataSocket_loop_keeps cs port p ps (<[port := d1]> D) d1
                  (lookup_insert_eq _ _ _)) as (d' & _ & _ & _ & Hother)
    end.
    destruct (DateDataSocket_loop _ _ _ _ _) as [[[]|e] D']; [|done].
    unfold UDPServer in Hinit. case_decide; [done|]. injection Hinit as <-.
    simpl in *. split; [done|]. split; [|done].
    intros port' Hne. rewrite Hother by done. by rewrite lookup_insert_ne.
Qed.

(** X6: while a publisher of either class is registered on a port, every
    further construction on that port, whatever its arguments, raises the
    ValueError for a port in use and changes nothing. *)
Theorem second_construction_refused cs port w w' :
  constructed cs port w w' →
  ∀ cs' dx dy (arg : timeouts_arg num),
    DataSocket_init cs' port dx dy w' = (Raise (ValueError (port_message port)), w') ∧
    DateDataSocket_init cs' port dx dy arg w'
      = (Raise (ValueError (port_message port)), w').
Proof.
  intros Hc cs' dx dy arg.
  assert (∃ d, DATA w' !! port = Some d) as [d Hd].
  { destruct Hc as [(dx0 & dy0 & Hinit) | (dx0 & dy0 & arg0 & Hinit)].
    - destruct (DataSocket_init_registered cs port dx0 dy0 w) as (d & Hd & _);
        rewrite Hinit in *; [done|]. by exists d.
    - destruct (DateDataSocket_init_registered cs port dx0 dy0 arg0 w) as (d & Hd & _);
        rewrite Hinit in *; [done|]. by exists d. }
  by eapply init_on_registered_port.
Qed.

(** X7: constructing a publisher and stopping it gives [DATA] back as it
    was before the construction; the port stays bound. *)
Theorem stop_undoes_registration cs port w w' :
  constructed cs port w w' →
  (DataSocket_stop port w').1 = Ok () ∧
  DateDataSocket_stop port w' = DataSocket_stop port w' ∧
  DATA (DataSocket_stop port w').2 = DATA w ∧
  bound (DataSocket_stop port w').2 = {[port]} ∪ bound w.
Proof.
  intros Hc. destruct (constructed_frame _ _ _ _ Hc) as (Hfree & Hother & Hbound).
  assert (∃ d, DATA w' !! port = Some d) as [d Hd].
  { destruct Hc as [(dx0 & dy0 & Hinit) | (dx0 & dy0 & arg0 & Hinit)].
    - destruct (DataSocket_init_registered cs port dx0 dy0 w) as (d & Hd & _);
        rewrite Hinit in *; [done|]. by exists d.
    - destruct (DateDataSocket_init_registered cs port dx0 dy0 arg0 w) as (d & Hd & _);
        rewrite Hinit in *; [done|]. by exists d. }
  unfold DateDataSocket_stop, DataSocket_stop. rewrite Hd. simpl.
  do 2 (split; [done|]). split; [|done].
  apply map_eq. intros port'. destruct (decide (port' = port)) as [->|Hne].
  - by rewrite lookup_delete_eq.
  - rewrite lookup_delete_ne by done. by apply Hother.
Qed.

(** X8: once [stop] has removed the entry of a port, a second [stop] and
    every [set_point] and [set_point_now] on that port raise KeyError and
    leave the state as it is. *)
Theorem use_after_stop port w d :
  DATA w !! port = Some d →
  let w' := (DataSocket_stop port w).2 in
  DataSocket_stop port w' = (Raise KeyError, w') ∧
  DateDataSocket_stop port w' = (Raise KeyError, w') ∧
  ∀ codename p now value,
    DataSocket_set_point port codename p w' = (Raise KeyError, w') ∧
    DateDataSocket_set_point port codename p w' = (Raise KeyError, w') ∧
    DateDataSocket_set_point_now now port codename value w' = (Raise KeyError, w').
Proof.
  intros Hd w'.
  assert (w' = World (delete port (DATA w)) (bound w)) as ->.
  { subst w'. unfold DataSocket_stop. by rewrite Hd. }
  unfold DataSocket_stop, DateDataSocket_stop, DateDataSocket_set_point_now,
    DateDataSocket_set_point, DataSocket_set_point, setitem_data, getitem. simpl.
  by rewrite !lookup_delete_eq.
Qed.

End Refusal.

(** ** What a reply depends on *)

Section Dependence.
Context {num : Type} `{PyNumber num} `{!PyJson num}.
Implicit Types (D : gmap Z (dataset num)) (d : dataset num) (p : point num).
Implicit Types (time : nat → num) (now : num) (port : Z) (w : world num).

Lemma json_wn_loop_ext time time' D D' port names :
  (∀ i name, _old_data (time i) D port name = _old_data (time' i) D' port name) →
  ∀ i datacopy,
    json_wn_loop time D port i names datacopy = json_wn_loop time' D' port i names datacopy.
Proof.
  intros Hold. induction names as [|name names IH]; intros i datacopy; simpl; [done|].
  rewrite Hold. destruct (_old_data _ _ _ _) as [stale|e]; simpl; [|done]. apply IH.
Qed.

(** The reply is made of the entry of the port and of the staleness tests:
    two requests that agree on these get the same reply. *)
Lemma handle_ext time time' D D' port command :
  D !! port = D' !! port →
  (∀ i name, _old_data (time i) D port name = _old_data (time' i) D' port name) →
  handle time D port command = handle time' D' port command.
Proof.
  intros Hport Hold.
  assert (getitem D port = getitem D' port) as Hget by (unfold getitem; by rewrite Hport).
  assert (∀ name, in_data D port name = in_data D' port name) as Hin
    by (intros; unfold in_data; by rewrite Hget).
  assert (∀ name, data_of D port name = data_of D' port name) as Hdata
    by (intros; unfold data_of; by rewrite Hget).
  assert (∀ {A} (stale_out : string → A) (fresh_out : string → point num → A) i names,
    for_codenames (λ i codename,
        old <- _old_data (time i) D port codename ;;
        if old then Ok (stale_out codename)
        else p <- data_of D port codename ;; Ok (fresh_out codename p)) i names
    = for_codenames (λ i codename,
        old <- _old_data (time' i) D' port codename ;;
        if old then Ok (stale_out codename)
        else p <- data_of D' port codename ;; Ok (fresh_out codename p)) i names)
    as Hloop.
  { intros A stale_out fresh_out i names. apply for_codenames_ext.
    intros j name _. by rewrite Hold, Hdata. }
  unfold handle. case_decide.
  - unfold _single_value.
    destruct (str_split "#" command) as [|name [|mode [|? ?]]]; try done.
    rewrite !Hin, !Hold, !Hdata.
    destruct (decide (mode = "raw")), (decide (mode = "json")); simpl;
      repeat (match goal with
              | |- context [bind ?r _] => destruct r as [[]|?]; simpl
              end); done.
  - unfold _all_values. rewrite Hget.
    repeat case_decide; try done; destruct (getitem D' port) as [d|e]; simpl; try done.
    + by rewrite (Hloop _ (λ _, OLD_DATA) (λ _ p, format_point p)).
    + by rewrite (Hloop _ (λ _, PStr OLD_DATA) (λ _ p, pyval_of_point p)).
    + by rewrite (Hloop _ (λ name, name +:+ ":" +:+ OLD_DATA)
                    (λ name p, name +:+ ":" +:+ format_point p)).
    + by rewrite (json_wn_loop_ext time time' D D' port _ Hold).
Qed.

Lemma old_data_port_local now D D' port name :
  D !! port = D' !! port → _old_data now D port name = _old_data now D' port name.
Proof. intros Hport. unfold _old_data, getitem. by rewrite Hport. Qed.

(** X9: ports are independent.  A reply on one port is the same before
    and after [set_point], [stop] or the construction of a publisher of
    either class on another port, whether that call returns or raises. *)
Theorem replies_port_local time port port' command w :
  port' ≠ port →
  ∀ w', (∃ codename p, w' = (DataSocket_set_point port' codename p w).2) ∨
        w' = (DataSocket_stop port' w).2 ∨
        (∃ cs dx dy, w' = (DataSocket_init cs port' dx dy w).2) ∨
        (∃ cs dx dy arg, w' = (DateDataSocket_init cs port' dx dy arg w).2) →
  handle time (DATA w') port command = handle time (DATA w) port command.
Proof.
  intros Hne w' Hw'.
  assert (DATA w' !! port = DATA w !! port) as Hport.
  { destruct Hw' as [(codename & p & ->) | [-> | [(cs & dx & dy & ->) | (cs & dx & dy & arg & ->)]]].
    - unfold DataSocket_set_point, setitem_data, getitem.
      destruct (DATA w !! port') as [d0|]; simpl; [|done]. by rewrite lookup_insert_ne.
    - unfold DataSocket_stop. destruct (DATA w !! port') as [d0|]; simpl; [|done].
      by rewrite lookup_delete_ne.
    - unfold DataSocket_init. case_decide; [done|].
      match goal with |- context [DataSocket_loop _ _ ?p _ (<[port' := ?d1]> ?D)] =>
        destruct (DataSocket_loop_keeps cs port' p cs (<[port' := d1]> D) d1
                    (lookup_insert_eq _ _ _)) as (d' & _ & _ & _ & Hother)
      end.
      specialize (Hother port (not_eq_sym Hne)).
      destruct (DataSocket_loop _ _ _ _ _) as [[[]|e] D']; simpl in *.
      + unfold UDPServer. case_decide; simpl; by rewrite Hother, lookup_insert_ne.
      + by rewrite Hother, lookup_insert_ne.
    - unfold DateDataSocket_init. case_decide; [done|].
      destruct (convert_timeouts cs arg) as [ts|e]; [|done].
      match goal with
        |- context [DateDataSocket_loop _ _ ?p ?ps (<[port' := ?d1]> ?D)] =>
        destruct (DateDataSocket_loop_keeps cs port' p ps (<[port' := d1]> D) d1
                    (lookup_insert_eq _ _ _)) as (d' & _ & _ & _ & Hother)
      end.
      specialize (Hother port (not_eq_sym Hne)).
      destruct (DateDataSocket_loop _ _ _ _ _) as [[[]|e] D']; simpl in *.
      + unfold UDPServer. case_decide; simpl; by rewrite Hother, lookup_insert_ne.
      + by rewrite Hother, lookup_insert_ne. }
  apply handle_ext; [done|]. intros i name. by apply old_data_port_local.
Qed.

(** X10: the replies of a dataset of type 'data', and of a dataset of
    type 'date' in which no name has a timeout other than None, do not
    depend on the clock: what is answered at one time is answered at any
    other. *)
Theorem replies_without_timeouts_ignore_clock time time' D port d command :
  D !! port = Some d →
  type d = "data" ∨
    (type d = "date" ∧ ∃ tm, timeouts d = Some tm ∧ ∀ name, dict_get tm name = None) →
  handle time D port command = handle time' D port command.
Proof.
  intros Hd Hnever. apply handle_ext; [done|]. intros i name.
  destruct Hnever as [Ht | (Ht & tm & Htm & Hnone)].
  - by rewrite !(old_data_plain _ _ _ _ _ Hd Ht).
  - by rewrite !(old_data_date _ _ _ _ _ _ Hd Ht Htm), Hnone.
Qed.

End Dependence.

(** ** The bulk replies *)

Lemma str_split_app_sep (c : ascii) (s t : string) :
  str_count c s = 0 → str_split c (s +:+ String c t) = s :: str_split c t.
Proof.
  intros Hs. induction s as [|a s IH]; simpl in *.
  - by rewrite decide_True.
  - destruct (decide (a = c)); [lia|]. by rewrite IH.
Qed.

Lemma str_split_join (c : ascii) (l : list string) :
  Forall (λ s, str_count c s = 0) l → l ≠ [] →
  str_split c (str_join (String c "") l) = l.
Proof.
  induction 1 as [|s l Hs Hl IH]; intros Hne; [done|]. simpl.
  destruct l as [|s' l]; [by apply str_split_none|].
  change (String c "" +:+ str_join (String c "") (s' :: l))
    with (String c (str_join (String c "") (s' :: l))).
  rewrite str_split_app_sep by done. by rewrite IH.
Qed.

Section Bulk.
Context {num : Type} `{PyNumber num} `{!PyJson num}.
Implicit Types (D : gmap Z (dataset num)) (d : dataset num) (p : point num).
Implicit Types (time : nat → num) (now : num) (port : Z).

(** A single-value request for a name without [#] that has a point. *)
Lemma single_value_known time D port d name p :
  D !! port = Some d → str_count "#" name = 0 → data d !! name = Some p →
  ∀ stale, _old_data (time 0) D port name = Ok stale →
  handle time D port (name +:+ "#raw")
    = Ok (if stale then OLD_DATA else format_point p) ∧
  handle time D port (name +:+ "#json")
    = Ok (json_dumps (if stale then PStr OLD_DATA else pyval_of_point p)).
Proof.
  intros Hd Hhash Hp stale Hold.
  assert (bool_decide (is_Some (data d !! name)) = true) as Hknown.
  { apply bool_decide_eq_true. by eexists. }
  unfold handle. split.
  - rewrite decide_True by (rewrite str_count_app, Hhash; done).
    unfold _single_value. rewrite (str_split_sep "#" name "raw" Hhash eq_refl).
    simpl. rewrite (in_data_eq _ _ _ _ Hd), Hknown. simpl.
    rewrite Hold. simpl. destruct stale; [done|].
    by rewrite (data_of_Some _ _ _ _ _ Hd Hp).
  - rewrite decide_True by (rewrite str_count_app, Hhash; done).
    unfold _single_value. rewrite (str_split_sep "#" name "json" Hhash eq_refl).
    simpl. rewrite (in_data_eq _ _ _ _ Hd), Hknown. simpl.
    rewrite Hold. simpl. destruct stale; [done|].
    by rewrite (data_of_Some _ _ _ _ _ Hd Hp).
Qed.

(** The three loops of [_all_values] over names that have a point, field
    by field. *)
Lemma bulk_fields time D port d names :
  D !! port = Some d → dataset_ok d →
  Forall (λ name, name_ok name ∧ is_Some (data d !! name)) names →
  ∀ i, ∃ raws points,
    for_codenames (λ i codename,
        old <- _old_data (time i) D port codename ;;
        if old then Ok OLD_DATA
        else p <- data_of D port codename ;; Ok (format_point p)) i names = Ok raws ∧
    for_codenames (λ i codename,
        old <- _old_data (time i) D port codename ;;
        if old then Ok (PStr OLD_DATA)
        else p <- data_of D port codename ;; Ok (pyval_of_point p)) i names = Ok points ∧
    for_codenames (λ i codename,
        old <- _old_data (time i) D port codename ;;
        if old then Ok (codename +:+ ":" +:+ OLD_DATA)
        else p <- data_of D port codename ;;
             Ok (codename +:+ ":" +:+ format_point p)) i names
      = Ok (zip_with (λ name raw, name +:+ ":" +:+ raw) names raws) ∧
    length raws = length names ∧ length points = length names ∧
    ∀ k name, names !! k = Some name →
      ∃ raw point, raws !! k = Some raw ∧ points !! k = Some point ∧
        handle (at_time (time (i + k))) D port (name +:+ "#raw") = Ok raw ∧
        handle (at_time (time (i + k))) D port (name +:+ "#json") = Ok (json_dumps point).
Proof.
  intros Hd Hok. induction 1 as [|name names [Hname [p Hp]] _ IH]; intros i.
  - exists [], []. simpl. repeat split; done.
  - destruct (IH (S i)) as (raws & points & Hraw & Hjson & Hwn & Hlr & Hlp & Hfield).
    destruct (old_data_total (time i) _ _ _ _ _ Hd Hok Hp) as [stale Hold].
    destruct (single_value_known (at_time (time i)) D port d name p Hd
                (name_ok_no_hash _ Hname) Hp stale Hold) as [Hsr Hsj].
    exists ((if stale then OLD_DATA else format_point p) :: raws),
           ((if stale then PStr OLD_DATA else pyval_of_point p) :: points).
    simpl. rewrite Hold, Hraw, Hjson, Hwn. simpl.
    rewrite (data_of_Some _ _ _ _ _ Hd Hp). simpl.
    split; [by destruct stale|]. split; [by destruct stale|].
    split; [by destruct stale|]. split; [by rewrite Hlr|]. split; [by rewrite Hlp|].
    intros [|k] name' Hk; simpl in Hk.
    + injection Hk as <-. rewrite Nat.add_0_r. eexists _, _. by repeat split.
    + rewrite Nat.add_succ_r. by apply Hfield.
Qed.

(** X11: on a well-formed dataset the bulk replies are made of the
    single-value replies.  The reply to raw is the single-value raw replies
    of the codenames joined by a semicolon, the reply to json is the JSON
    array of their single-value json replies, and the reply to raw_wn is
    the raw replies with the codename and a colon in front, all in the
    order of the codenames; the k-th field is the reply the single-value
    request would get at the k-th reading of the clock. *)
Theorem bulk_replies_made_of_single_values time D port d :
  D !! port = Some d → dataset_ok d →
  ∃ raws jsons,
    length raws = length (codenames d) ∧ length jsons = length (codenames d) ∧
    (∀ k name, codenames d !! k = Some name →
       ∃ raw json, raws !! k = Some raw ∧ jsons !! k = Some json ∧
         handle (at_time (time k)) D port (name +:+ "#raw") = Ok raw ∧
         handle (at_time (time k)) D port (name +:+ "#json") = Ok json) ∧
    handle time D port "raw" = Ok (str_join ";" raws) ∧
    handle time D port "json" = Ok ("[" +:+ str_join ", " jsons +:+ "]") ∧
    handle time D port "raw_wn"
      = Ok (str_join ";" (zip_with (λ name raw, name +:+ ":" +:+ raw) (codenames d) raws)).
Proof.
  intros Hd Hok. pose proof Hok as ((_ & Hnames) & Hdata & _).
  destruct (bulk_fields time D port d (codenames d) Hd Hok) with (i := 0)
    as (raws & points & Hraw & Hjson & Hwn & Hlr & Hlp & Hfield).
  { apply Forall_forall. intros name Hin. rewrite Forall_forall in Hnames, Hdata. eauto. }
  exists raws, (map json_dumps points).
  split; [done|]. split; [by rewrite length_map|]. split; [|split; [|split]].
  - intros k name Hk. destruct (Hfield k name Hk) as (raw & point & Hr & Hp & Hsr & Hsj).
    exists raw, (json_dumps point). repeat split; try done.
    change (map json_dumps points) with (json_dumps <$> points).
    by rewrite list_lookup_fmap, Hp.
  - unfold handle. rewrite decide_False by done.
    unfold _all_values. simpl. rewrite (getitem_Some _ _ _ Hd). simpl. by rewrite Hraw.
  - unfold handle. rewrite decide_False by done.
    unfold _all_values. simpl. rewrite (getitem_Some _ _ _ Hd). simpl. rewrite Hjson.
    simpl. by rewrite (dumps_ascii _ (points_ascii _ _ _ _ _ _ Hjson)).
  - unfold handle. rewrite decide_False by done.
    unfold _all_values. simpl. rewrite (getitem_Some _ _ _ Hd). simpl. by rewrite Hwn.
Qed.

Lemma json_wn_loop_entries time D port names :
  NoDup names →
  ∀ i (datacopy out : gmap string (pyval num)),
  json_wn_loop time D port i names datacopy = Ok out →
  (∀ name, name ∉ names → out !! name = datacopy !! name) ∧
  (∀ k name, names !! k = Some name →
     ∃ stale, _old_data (time (i + k)) D port name = Ok stale ∧
       out !! name = if stale then Some (PStr OLD_DATA) else datacopy !! name).
Proof.
  induction 1 as [|n names Hnin _ IH]; intros i datacopy out; simpl.
  - intros [= <-]. split; [done|]. by intros k name.
  - destruct (_old_data (time i) D port n) as [stale|e] eqn:Hold; simpl; [|done].
    intros Hout. destruct (IH _ _ _ Hout) as [Hrest Hin]. split.
    + intros name [Hne Hnin']%not_elem_of_cons. rewrite Hrest by done.
      destruct stale; [|done]. by rewrite lookup_insert_ne.
    + intros [|k] name Hk; simpl in Hk.
      * injection Hk as <-. rewrite Nat.add_0_r. exists stale. split; [done|].
        rewrite Hrest by done. destruct stale; [|done]. apply lookup_insert_eq.
      * rewrite Nat.add_succ_r. destruct (Hin k name Hk) as (stale' & Hold' & Hlook).
        exists stale'. split; [done|]. rewrite Hlook.
        destruct stale'; [done|]. destruct stale; [|done].
        rewrite lookup_insert_ne; [done|].
        intros ->. apply Hnin. apply list_elem_of_lookup. by exists k.
Qed.

(** X12: on a well-formed dataset whose names are ASCII text the reply to
    json_wn is the dump of the items of a dict, in the order in which
    Python iterates it, with one entry for every name that has a point, and
    no other: a codename is mapped to the string OLD_DATA when it is stale
    at its reading of the clock and to its point otherwise, and a name with
    a point that is not a codename is always mapped to its point. *)
Theorem json_wn_entries time D port d :
  D !! port = Some d → dataset_ok d → ascii_names d →
  ∃ (datacopy : gmap string (pyval num)) items,
    items ≡ₚ map_to_list datacopy ∧
    handle time D port "json_wn" = Ok (json_dumps (PDict items)) ∧
    (∀ name, data d !! name = None → datacopy !! name = None) ∧
    (∀ name p, data d !! name = Some p → name ∉ codenames d →
       datacopy !! name = Some (pyval_of_point p)) ∧
    (∀ k name p, codenames d !! k = Some name → data d !! name = Some p →
       ∃ stale, _old_data (time k) D port name = Ok stale ∧
         datacopy !! name = Some (if stale then PStr OLD_DATA else pyval_of_point p)).
Proof.
  intros Hd Hok Hascii. pose proof Hok as ((Hnd & _) & Hdata & _).
  destruct (json_wn_loop_total time D port d (codenames d) Hd Hok Hdata 0
              (pyval_of_point <$> data d)) as [out Hout].
  destruct (json_wn_loop_entries time D port (codenames d) Hnd _ _ _ Hout)
    as [Hrest Hin].
  exists out, (dict_items out). split; [apply dict_items_perm|]. split; [|split; [|split]].
  - unfold handle. rewrite decide_False by done.
    unfold _all_values. simpl. rewrite (getitem_Some _ _ _ Hd). simpl. rewrite Hout.
    simpl. apply (dumps_ascii (PDict (dict_items out))), ascii_only_dict.
    eapply json_wn_loop_ascii; [apply Hascii|by apply datacopy_ascii|exact Hout].
  - intros name Hnone.
    assert (name ∉ codenames d) as Hnin.
    { intros Hin'. rewrite Forall_forall in Hdata.
      destruct (Hdata name Hin') as [? ?]. congruence. }
    by rewrite Hrest, lookup_fmap, Hnone.
  - intros name p Hp Hnin. by rewrite Hrest, lookup_fmap, Hp.
  - intros k name p Hk Hp. destruct (Hin k name Hk) as (stale & Hold & Hlook).
    exists stale. split; [done|]. rewrite Hlook, lookup_fmap, Hp. by destruct stale.
Qed.

(** X13: the reserved comma makes the reply to codenames_raw readable:
    when no codename holds a comma and there is at least one codename,
    splitting the reply at the commas gives the codenames back; with no
    codename at all the reply is empty, and splits into one empty name. *)
Theorem codenames_raw_splits_back time D port d :
  D !! port = Some d → Forall name_ok (codenames d) →
  ∃ reply, handle time D port "codenames_raw" = Ok reply ∧
    (codenames d ≠ [] → str_split "," reply = codenames d) ∧
    (codenames d = [] → reply = "" ∧ str_split "," reply = [""]).
Proof.
  intros Hd Hnames. eexists. split; [|split].
  - unfold handle. rewrite decide_False by done.
    unfold _all_values. simpl. by rewrite (getitem_Some _ _ _ Hd).
  - intros Hne. apply str_split_join; [|done].
    eapply Forall_impl; [exact Hnames|]. intros name Hname. simpl.
    apply str_contains_count. unfold name_ok, BAD_CHARS in Hname.
    rewrite !Forall_cons in Hname. by destruct Hname as (_ & ? & _).
  - by intros ->.
Qed.

End Bulk.

(** ** Staleness over time *)

Section Ageing.
Context {num : Type} `{ExactNumber num} `{!PyJson num}.
Implicit Types (D : gmap Z (dataset num)) (d : dataset num) (w : world num).

(** X14: staleness only grows with time.  With exact numbers, a codename
    that is stale at one time is stale at every later time, as long as
    [DATA] is not changed. *)
Theorem staleness_is_monotone (now now' : num) D (port : Z) (name : string) :
  (num_value now ≤ num_value now')%Qc →
  _old_data now D port name = Ok true → _old_data now' D port name = Ok true.
Proof.
  intros Hle. unfold _old_data.
  destruct (getitem D port) as [d|e]; simpl; [|done].
  case_decide; [|by case_decide].
  destruct (get_timeouts d) as [tm|e]; simpl; [|done].
  destruct (dict_get tm name) as [timeout|]; [|done].
  destruct (getitem (data d) name) as [p|e]; simpl; [|done].
  intros [= Hgt]. f_equal. apply num_gt_value. apply num_gt_value in Hgt.
  rewrite num_sub_value in *. eapply Qclt_le_trans; [exact Hgt|].
  unfold Qcminus. by apply Qcplus_le_mono_r.
Qed.

(** X15: a point set with [set_point_now] is fresh at the time it is set
    unless the timeout of its codename is negative: at that very time the
    codename is stale exactly when a timeout below zero is stored for it,
    and otherwise a request for a name without [#] is answered with the
    point that was set. *)
Theorem set_point_now_is_fresh (now value : num) (port : Z) (name : string) w d tm :
  DATA w !! port = Some d → type d = "date" → timeouts d = Some tm →
  let w' := (DateDataSocket_set_point_now now port name value w).2 in
  ∃ stale, _old_data now (DATA w') port name = Ok stale ∧
    (stale = true ↔ ∃ timeout, tm !! name = Some (Some timeout) ∧ (num_value timeout < 0)%Qc) ∧
    (stale = false → str_count "#" name = 0 →
       handle (at_time now) (DATA w') port (name +:+ "#raw")
         = Ok (format_point (now, value))).
Proof.
  intros Hd Ht Htm w'.
  assert (DATA w' !! port
          = Some (Dataset (type d) (codenames d) (<[name := (now, value)]> (data d))
                    (timeouts d))) as Hd'.
  { subst w'. unfold DateDataSocket_set_point_now, DateDataSocket_set_point.
    rewrite (setitem_data_Some _ _ _ _ _ Hd). simpl. apply lookup_insert_eq. }
  assert (∃ stale, _old_data now (DATA w') port name = Ok stale ∧
            (stale = true ↔
               ∃ timeout, tm !! name = Some (Some timeout) ∧ (num_value timeout < 0)%Qc))
    as (stale & Hold & Hiff).
  { rewrite (old_data_date _ _ _ _ tm _ Hd' Ht Htm). unfold dict_get, getitem. simpl.
    rewrite lookup_insert_eq. simpl.
    destruct (tm !! name) as [[timeout|]|] eqn:Hget.
    - eexists. split; [done|]. rewrite num_gt_value, num_sub_value.
      replace (num_value now - num_value now)%Qc with 0%Qc by ring.
      split; [intros ?; by exists timeout | by intros (t & [= ->] & ?)].
    - exists false. split; [done|]. split; [done|]. by intros (t & [=] & _).
    - exists false. split; [done|]. split; [done|]. by intros (t & [=] & _). }
  exists stale. split; [done|]. split; [done|]. intros -> Hhash.
  destruct (single_value_known (at_time now) _ port _ name (now, value) Hd' Hhash
              (lookup_insert_eq _ _ _) false Hold) as [Hraw _].
  exact Hraw.
Qed.

End Ageing.

(** ** How calls of set_point compose *)

Section Composition.
Context {num : Type}.
Implicit Types (w : world num) (p : point num) (port : Z).

(** X16: the last write wins, and writes to different names or different
    ports commute.  Two calls of [set_point] for one codename of one port
    leave the state that the second call alone leaves, with its outcome;
    two calls for different codenames or different ports leave the same
    state in either order. *)
Theorem set_point_composes port1 port2 (codename1 codename2 : string) p1 p2 w :
  DataSocket_set_point port1 codename1 p2 (DataSocket_set_point port1 codename1 p1 w).2
    = DataSocket_set_point port1 codename1 p2 w ∧
  (port1 ≠ port2 ∨ codename1 ≠ codename2 →
   (DataSocket_set_point port2 codename2 p2 (DataSocket_set_point port1 codename1 p1 w).2).2
     = (DataSocket_set_point port1 codename1 p1
          (DataSocket_set_point port2 codename2 p2 w).2).2).
Proof.
  unfold DataSocket_set_point, setitem_data, getitem. split.
  - destruct (DATA w !! port1) as [d|] eqn:Hd; simpl; [|by rewrite Hd].
    rewrite lookup_insert_eq. simpl. by rewrite !insert_insert_eq.
  - intros Hne. destruct (decide (port1 = port2)) as [<-|Hport].
    + destruct Hne as [?|Hname]; [done|].
      destruct (DATA w !! port1) as [d|] eqn:Hd; simpl; [|by rewrite Hd].
      rewrite !lookup_insert_eq. simpl. rewrite !insert_insert_eq.
      do 3 f_equal. by apply insert_insert_ne.
    + destruct (DATA w !! port1) as [d1|] eqn:Hd1, (DATA w !! port2) as [d2|] eqn:Hd2;
        simpl; rewrite ?lookup_insert_ne by done; rewrite ?Hd1, ?Hd2; simpl; [|done..].
      f_equal. by apply insert_insert_ne.
Qed.

End Composition.

(** ** Requests at the edges *)

Section Edges.
Context {num : Type} `{PyNumber num} `{!PyJson num}.
Implicit Types (D : gmap Z (dataset num)) (d : dataset num) (w : world num).
Implicit Types (time : nat → num) (port : Z).

(** X17: a publisher may be constructed with no codename at all.  It
    answers raw, raw_wn and codenames_raw with the empty string, json and
    codenames_json with an empty JSON array and json_wn with an empty JSON
    object. *)
Theorem publisher_without_codenames time port dx dy w :
  DATA w !! port = None → port ∉ bound w →
  let r := DataSocket_init [] port dx dy w in
  r.1 = Ok () ∧
  handle time (DATA r.2) port "raw" = Ok "" ∧
  handle time (DATA r.2) port "raw_wn" = Ok "" ∧
  handle time (DATA r.2) port "codenames_raw" = Ok "" ∧
  handle time (DATA r.2) port "json" = Ok "[]" ∧
  handle time (DATA r.2) port "codenames_json" = Ok "[]" ∧
  handle time (DATA r.2) port "json_wn" = Ok "{}".
Proof.
  intros Hfree Hunbound r. subst r. unfold DataSocket_init.
  case_decide as Hused; [rewrite Hfree in Hused; by destruct Hused|].
  simpl. unfold UDPServer. simpl. rewrite decide_False by done. simpl.
  split; [done|].
  unfold handle, _all_values, getitem. simpl.
  rewrite !lookup_insert_eq. simpl.
  rewrite fmap_empty, dict_items_empty. by repeat split.
Qed.

(** X18: a request that reaches the handler when [DATA] has no entry for
    the port (the publisher was stopped) raises KeyError instead of being
    answered, for each of the six bulk commands and for name#raw and
    name#json whatever the name; every other command is still answered with
    [UNKNOWN_COMMAND]. *)
Theorem handle_without_entry time D port command :
  D !! port = None →
  (command ∈ bulk_commands → handle time D port command = Raise KeyError) ∧
  (∀ name mode, str_split "#" command = [name; mode] → str_count "#" command = 1 →
     mode = "raw" ∨ mode = "json" → handle time D port command = Raise KeyError) ∧
  (command ∉ bulk_commands →
   (∀ name mode, str_split "#" command = [name; mode] → mode ≠ "raw" ∧ mode ≠ "json") →
   handle time D port command = Ok UNKNOWN_COMMAND).
Proof.
  intros Hnone. split; [|split].
  - intros Hin. unfold handle, bulk_commands in *.
    repeat (apply elem_of_cons in Hin as [->|Hin];
            [simpl; unfold _all_values, getitem; simpl; by rewrite Hnone|]).
    by apply elem_of_nil in Hin.
  - intros name mode Hsplit Hcount Hmode. unfold handle. rewrite decide_True by done.
    unfold _single_value, in_data, getitem. rewrite Hsplit, Hnone.
    by destruct Hmode as [-> | ->].
  - intros Hnin Hmode. unfold handle. case_decide as Hcount.
    + destruct (str_split_one _ _ Hcount) as (name & mode & Hsplit).
      destruct (Hmode name mode Hsplit) as [Hraw Hjson].
      unfold _single_value. rewrite Hsplit. by rewrite !decide_False by done.
    + by apply all_values_unknown.
Qed.

(** X19: the handler knows the types 'data' and 'date' only.  On an
    entry of any other type every staleness test raises
    NotImplementedError, and with it the requests raw, json, raw_wn and
    json_wn as soon as there is a codename; codenames_raw and
    codenames_json, which test nothing, are answered as usual. *)
Theorem handle_unknown_type time D port d name names :
  D !! port = Some d → type d ≠ "data" → type d ≠ "date" →
  codenames d = name :: names →
  (∀ now code_name, _old_data now D port code_name = Raise NotImplementedError) ∧
  (∀ command, command ∈ ["raw"; "json"; "raw_wn"; "json_wn"] →
     handle time D port command = Raise NotImplementedError) ∧
  handle time D port "codenames_raw" = Ok (str_join "," (codenames d)).
Proof.
  intros Hd Hdata Hdate Hnames.
  assert (∀ now code_name, _old_data now D port code_name = Raise NotImplementedError)
    as Hold.
  { intros now code_name. unfold _old_data. rewrite (getitem_Some _ _ _ Hd). simpl.
    by rewrite !decide_False by done. }
  split; [done|]. split.
  - intros command Hin. unfold handle.
    repeat (apply elem_of_cons in Hin as [->|Hin];
            [simpl; unfold _all_values; simpl; rewrite (getitem_Some _ _ _ Hd); simpl;
             rewrite Hnames; simpl; by rewrite Hold|]).
    by apply elem_of_nil in Hin.
  - unfold handle. simpl. unfold _all_values. simpl. by rewrite (getitem_Some _ _ _ Hd).
Qed.

End Edges.

(** * The drivers *)

(** ** PowerWalkerEthernet.read_events *)

Section ReadEvents.
Import Drivers.
Variable strip : string → string.
Variable strptime : string → option Z.
Implicit Types (lines : list string) (events evs acc : list event) (latest : Z).

Local Abbreviation event_of := (event_of strip strptime).
Local Abbreviation read_events_loop := (read_events_loop strip strptime).
Local Abbreviation read_events := (read_events strip strptime).

(** One round of the loop on a line that holds an event. *)
Lemma read_events_loop_step only_new line e lines latest acc :
  event_of line = Some e →
  read_events_loop only_new (line :: lines) latest acc =
    if only_new && bool_decide (timestamp e < latest)%Z
    then read_events_loop only_new lines latest acc
    else read_events_loop only_new lines (timestamp e) (acc ++ [e]).
Proof.
  unfold Drivers.event_of. simpl.
  destruct (str_split "," (strip line)) as [|field [|event [|source more]]]; try done.
  unfold index. simpl. destruct (strptime field) as [ts|]; [|done].
  intros [= <-]. done.
Qed.

Lemma default_last_cons latest (e : event) evs :
  default (timestamp e) (timestamp <$> last evs)
    = default latest (timestamp <$> last (e :: evs)).
Proof.
  destruct evs as [|e' evs]; [done|]. rewrite last_cons_cons.
  destruct (last (e' :: evs)) eqn:Hl; [done|]. by apply last_None in Hl.
Qed.

Lemma read_events_loop_all lines evs :
  Forall2 (λ line e, event_of line = Some e) lines evs →
  ∀ latest acc,
    read_events_loop false lines latest acc =
      (Return (Events (acc ++ evs)), default latest (timestamp <$> last evs)).
Proof.
  induction 1 as [|line e lines evs He _ IH]; intros latest acc.
  - simpl. by rewrite app_nil_r.
  - rewrite (read_events_loop_step _ _ _ _ _ _ He). simpl. rewrite IH.
    rewrite <-app_assoc. simpl. f_equal. apply default_last_cons.
Qed.

(** With [only_new] on a log in time order, the loop keeps the events that
    are not older than [latest_event]. *)
Lemma read_events_loop_sorted lines evs :
  Forall2 (λ line e, event_of line = Some e) lines evs →
  StronglySorted Z.le (timestamp <$> evs) →
  ∀ latest acc,
    let kept := filter (λ e, latest ≤ timestamp e)%Z evs in
    read_events_loop true lines latest acc =
      (Return (Events (acc ++ kept)), default latest (timestamp <$> last kept)).
Proof.
  induction 1 as [|line e lines evs He Hall IH]; intros Hsorted latest acc kept.
  - subst kept. simpl. by rewrite app_nil_r.
  - rewrite fmap_cons in Hsorted. apply StronglySorted_inv in Hsorted as [Hsorted Hle].
    rewrite (read_events_loop_step _ _ _ _ _ _ He). simpl. subst kept.
    rewrite filter_cons. case_bool_decide as Hlt.
    + rewrite decide_False by lia. by apply IH.
    + rewrite decide_True by lia. rewrite (IH Hsorted).
      assert (filter (λ e', timestamp e ≤ timestamp e')%Z evs = evs
              ∧ filter (λ e', latest ≤ timestamp e')%Z evs = evs) as [-> ->].
      { rewrite Forall_fmap in Hle. clear -Hle Hlt.
        induction evs as [|e' evs IH']; [done|].
        apply Forall_cons in Hle as [Hle' Hle]. simpl in Hle'.
        destruct (IH' Hle) as [IH1 IH2].
        rewrite !filter_cons, !decide_True by lia. by rewrite IH1, IH2. }
      rewrite <-app_assoc. simpl. f_equal. apply default_last_cons.
Qed.

(** X20: with fewer than two lines [read_events] prints that the file
    has too few lines and leaves [latest_event] alone.  Without [only_new],
    on a log whose lines after the first all hold an event, it prints every
    event in the order of the file, and [latest_event] ends as the timestamp
    of the last line, whether or not that is the latest one. *)
Theorem read_events_prints_all only_new raw_lines latest :
  (length raw_lines < 2 →
     read_events only_new raw_lines latest = (Return TooFewLines, latest)) ∧
  (∀ header lines evs, raw_lines = header :: lines → lines ≠ [] →
     Forall2 (λ line e, event_of line = Some e) lines evs →
     read_events false raw_lines latest
       = (Return (Events evs), default latest (timestamp <$> last evs))).
Proof.
  split.
  - intros Hl. unfold Drivers.read_events. by rewrite decide_True.
  - intros header lines evs -> Hne Hall. unfold Drivers.read_events.
    rewrite decide_False by (destruct lines; simpl; [done|lia]).
    simpl. rewrite drop_0. by rewrite (read_events_loop_all _ _ Hall).
Qed.

(** X21: [only_new] does not mean strictly newer.  On a log in time
    order whose lines after the first all hold an event, [read_events] with
    [only_new] prints the events whose timestamp is not below
    [latest_event], those equal to it included. *)
Theorem read_events_only_new raw_lines header lines evs latest :
  raw_lines = header :: lines → lines ≠ [] →
  Forall2 (λ line e, event_of line = Some e) lines evs →
  StronglySorted Z.le (timestamp <$> evs) →
  let kept := filter (λ e, latest ≤ timestamp e)%Z evs in
  read_events true raw_lines latest
    = (Return (Events kept), default latest (timestamp <$> last kept)).
Proof.
  intros -> Hne Hall Hsorted kept. unfold Drivers.read_events.
  rewrite decide_False by (destruct lines; simpl; [done|lia]).
  simpl. rewrite drop_0. by rewrite (read_events_loop_sorted _ _ Hall Hsorted).
Qed.

(** X22: reading the same log twice with [only_new] prints the last
    event twice.  After a first call that printed the whole log (in time
    order, starting from a [latest_event] not above its first timestamp), a
    second call on the same lines prints again exactly the events that carry
    the last timestamp of the log, the last event among them. *)
Theorem read_events_repeats_last raw_lines header lines evs last_event latest :
  raw_lines = header :: lines →
  Forall2 (λ line e, event_of line = Some e) lines evs →
  StronglySorted Z.le (timestamp <$> evs) →
  last evs = Some last_event →
  Forall (λ e, latest ≤ timestamp e)%Z evs →
  let first_call := read_events true raw_lines latest in
  let second_call := read_events true raw_lines first_call.2 in
  first_call = (Return (Events evs), timestamp last_event) ∧
  second_call
    = (Return (Events (filter (λ e, timestamp e = timestamp last_event) evs)),
       timestamp last_event) ∧
  last_event ∈ filter (λ e, timestamp e = timestamp last_event) evs.
Proof.
  intros -> Hall Hsorted Hlast Hfrom first_call second_call.
  assert (lines ≠ []) as Hne.
  { intros ->. apply Forall2_nil_inv_l in Hall as ->. done. }
  assert (length (header :: lines) < 2 → False) as Hlen
    by (destruct lines; simpl; [done|lia]).
  assert (Forall (λ e, timestamp e ≤ timestamp last_event)%Z evs) as Hupper.
  { clear -Hsorted Hlast. induction evs as [|e evs IH]; [done|].
    rewrite fmap_cons in Hsorted. apply StronglySorted_inv in Hsorted as [Hsorted Hle].
    destruct evs as [|e' evs].
    - injection Hlast as <-. by constructor.
    - rewrite last_cons_cons in Hlast. constructor; [|by apply IH].
      rewrite Forall_fmap, Forall_forall in Hle. apply (Hle last_event).
      by apply last_Some_elem_of. }
  assert (first_call = (Return (Events evs), timestamp last_event)) as Hfirst.
  { subst first_call. unfold Drivers.read_events. rewrite decide_False by done.
    simpl. rewrite drop_0. rewrite (read_events_loop_sorted _ _ Hall Hsorted). simpl.
    assert (filter (λ e, latest ≤ timestamp e)%Z evs = evs) as ->.
    { clear -Hfrom. induction Hfrom as [|e evs He _ IH]; [done|].
      by rewrite filter_cons, decide_True, IH. }
    by rewrite Hlast. }
  split; [done|]. subst second_call. rewrite Hfirst. simpl.
  assert (filter (λ e, timestamp last_event ≤ timestamp e)%Z evs
          = filter (λ e, timestamp e = timestamp last_event) evs) as Hsame.
  { clear -Hupper. induction Hupper as [|e evs He _ IH]; [done|].
    rewrite !filter_cons, IH.
    destruct (decide (timestamp e = timestamp last_event)) as [Heq|Hneq].
    - by rewrite decide_True by lia.
    - by rewrite decide_False by lia. }
  assert (last_event ∈ filter (λ e, timestamp e = timestamp last_event) evs) as Hin.
  { apply list_elem_of_filter. split; [done|]. by apply last_Some_elem_of. }
  split; [|done].
  unfold Drivers.read_events. rewrite decide_False by done.
  simpl. rewrite drop_0. rewrite (read_events_loop_sorted _ _ Hall Hsorted). simpl.
  rewrite Hsame. f_equal.
  destruct (last (filter _ evs)) as [e|] eqn:Hl; simpl; [|done].
  apply last_Some_elem_of, list_elem_of_filter in Hl. by destruct Hl.
Qed.

End ReadEvents.

Section ReadEventsErrors.
Import Drivers.
Variable strip : string → string.
Variable strptime : string → option Z.
Implicit Types (lines good rest : list string) (evs acc : list event) (latest : Z).

Local Abbreviation event_of := (event_of strip strptime).
Local Abbreviation read_events_loop := (read_events_loop strip strptime).
Local Abbreviation read_events := (read_events strip strptime).

(** The loop over lines that hold events, none of which [only_new] skips:
    with [only_new] they are in time order and not older than
    [latest_event]. *)
Lemma read_events_loop_app only_new good evs :
  Forall2 (λ line e, event_of line = Some e) good evs →
  ∀ rest latest acc,
    (only_new = true → StronglySorted Z.le (latest :: (timestamp <$> evs))) →
    read_events_loop only_new (good ++ rest) latest acc =
      read_events_loop only_new rest (default latest (timestamp <$> last evs)) (acc ++ evs).
Proof.
  induction 1 as [|line e good evs He _ IH]; intros rest latest acc Hsorted.
  - simpl. by rewrite app_nil_r.
  - rewrite <-app_comm_cons.
    rewrite (read_events_loop_step strip strptime _ _ _ _ _ _ He).
    assert (only_new && bool_decide (timestamp e < latest)%Z = false) as ->.
    { destruct only_new; [|done]. simpl. apply bool_decide_eq_false.
      specialize (Hsorted eq_refl). rewrite fmap_cons in Hsorted.
      apply StronglySorted_inv in Hsorted as [_ Hle].
      apply Forall_cons in Hle as [Hle _]. lia. }
    rewrite IH.
    + rewrite <-app_assoc. simpl. f_equal. apply default_last_cons.
    + intros Hnew. specialize (Hsorted Hnew). rewrite fmap_cons in Hsorted.
      by apply StronglySorted_inv in Hsorted as [Hsorted _].
Qed.

(** X23: a line that cannot be read ends the call with an exception and
    nothing is printed, while [latest_event] keeps the timestamp of the last
    event read before it.  After lines that hold events (none of them
    skipped: with [only_new] they are in time order and not older than
    [latest_event]), a line whose first field is not a timestamp raises
    ValueError, with or without [only_new]; a line with a timestamp but
    fewer than three fields raises IndexError, unless [only_new] is set and
    its timestamp is below [latest_event]: then it is skipped like any
    older line, and the call goes on as if the line were absent. *)
Theorem read_events_bad_line only_new header good bad rest evs latest :
  Forall2 (λ line e, event_of line = Some e) good evs →
  (only_new = true → StronglySorted Z.le (latest :: (timestamp <$> evs))) →
  let raw_lines := header :: good ++ bad :: rest in
  let latest' := default latest (timestamp <$> last evs) in
  (∀ field more, str_split "," (strip bad) = field :: more → strptime field = None →
     read_events only_new raw_lines latest = (Raise ValueError, latest')) ∧
  (∀ field more timestamp, str_split "," (strip bad) = field :: more →
     strptime field = Some timestamp → length more < 2 →
     (only_new = false ∨ (latest' ≤ timestamp)%Z →
        read_events only_new raw_lines latest = (Raise IndexError, latest')) ∧
     (only_new = true → (timestamp < latest')%Z → good ++ rest ≠ [] →
        read_events only_new raw_lines latest
          = read_events only_new (header :: good ++ rest) latest)).
Proof.
  intros Hall Hsorted raw_lines latest'.
  assert (read_events only_new raw_lines latest
          = read_events_loop only_new (bad :: rest) latest' evs) as ->.
  { subst raw_lines. unfold Drivers.read_events.
    rewrite decide_False by (rewrite length_cons, length_app; simpl; lia).
    simpl. rewrite drop_0. by rewrite (read_events_loop_app _ _ _ Hall). }
  split.
  - intros field more Hsplit Hparse. simpl. rewrite Hsplit. unfold index. simpl.
    by rewrite Hparse.
  - intros field more timestamp Hsplit Hparse Hlen. split.
    + intros Hkept. simpl. rewrite Hsplit. unfold index. simpl. rewrite Hparse. simpl.
      assert (only_new && bool_decide (timestamp < latest')%Z = false) as ->.
      { destruct Hkept as [-> | Hle]; [done|].
        rewrite (bool_decide_eq_false_2 _) by lia. by destruct only_new. }
      destruct more as [|event [|source more]]; simpl in *; [done..|lia].
    + intros -> Hlt Hne. simpl. rewrite Hsplit. unfold index. simpl. rewrite Hparse.
      simpl. rewrite (bool_decide_eq_true_2 _) by done.
      unfold Drivers.read_events.
      rewrite decide_False
        by (rewrite length_cons; destruct (good ++ rest); simpl; [done|lia]).
      simpl. rewrite drop_0. by rewrite (read_events_loop_app _ _ _ Hall).
Qed.

End ReadEventsErrors.

(** ** TeltonikaRut.cell_information *)

Lemma prefix_cons (a b : ascii) (pat s : string) :
  String.prefix (String a pat) (String b s)
    = if Ascii.ascii_dec a b then String.prefix pat s else false.
Proof. reflexivity. Qed.

Lemma prefix_app (pat s : string) :
  String.prefix pat s = true ↔ ∃ post, s = pat +:+ post.
Proof.
  revert s. induction pat as [|a pat IH]; intros s.
  - split; [intros _; by exists s |]. by destruct s.
  - destruct s as [|b s]; [split; [done | by intros [post [=]]]|].
    rewrite prefix_cons. destruct (Ascii.ascii_dec a b) as [->|Hne].
    + rewrite IH. split; intros [post Hpost]; exists post.
      * change (String b s = String b (pat +:+ post)). by rewrite Hpost.
      * change (String b s = String b (pat +:+ post)) in Hpost. by injection Hpost.
    + split; [done|]. intros [post Hpost].
      change (String b s = String a (pat +:+ post)) in Hpost. congruence.
Qed.

Lemma substring_cons (pat : string) (c : ascii) (s : string) :
  substring pat (String c s) ↔ String.prefix pat (String c s) = true ∨ substring pat s.
Proof.
  split.
  - intros ([|a pre] & post & Heq).
    + left. apply prefix_app. by exists post.
    + right. exists pre, post.
      change (String c s = String a (pre +:+ pat +:+ post)) in Heq. by injection Heq.
  - intros [[post Heq]%prefix_app | (pre & post & Heq)].
    + by exists "", post.
    + exists (String c pre), post.
      change (String c s = String c (pre +:+ pat +:+ post)). by rewrite Heq.
Qed.

Lemma str_find_nil (pat : string) :
  Drivers.str_find pat "" = if String.prefix pat "" then 0%Z else (-1)%Z.
Proof. reflexivity. Qed.

Lemma str_find_cons (pat : string) (c : ascii) (s : string) :
  Drivers.str_find pat (String c s) =
    if String.prefix pat (String c s) then 0%Z
    else if (Drivers.str_find pat s <? 0)%Z then (-1)%Z
         else (Drivers.str_find pat s + 1)%Z.
Proof. reflexivity. Qed.

Lemma str_find_range (pat s : string) :
  Drivers.str_find pat s = (-1)%Z ∨ (0 ≤ Drivers.str_find pat s)%Z.
Proof.
  induction s as [|c s IH]; rewrite ?str_find_nil, ?str_find_cons.
  - destruct (String.prefix pat ""); [right; lia | by left].
  - destruct (String.prefix pat (String c s)); [right; lia|].
    destruct (Drivers.str_find pat s <? 0)%Z eqn:Hneg; [by left|].
    right. apply Z.ltb_ge in Hneg. lia.
Qed.

Lemma str_find_found (pat s : string) :
  (0 ≤ Drivers.str_find pat s)%Z → substring pat s.
Proof.
  induction s as [|c s IH]; rewrite ?str_find_nil, ?str_find_cons.
  - destruct (String.prefix pat "") eqn:Hp; [|lia].
    intros _. apply prefix_app in Hp as [post Hpost]. by exists "", post.
  - destruct (String.prefix pat (String c s)) eqn:Hp.
    + intros _. apply substring_cons. by left.
    + destruct (Drivers.str_find pat s <? 0)%Z eqn:Hneg; [lia|].
      intros _. apply substring_cons. right. apply IH. by apply Z.ltb_ge in Hneg.
Qed.

Lemma str_find_none (pat s : string) :
  Drivers.str_find pat s = (-1)%Z ↔ ¬ substring pat s.
Proof.
  split.
  - induction s as [|c s IH]; rewrite ?str_find_nil, ?str_find_cons.
    + destruct (String.prefix pat "") eqn:Hp; [done|].
      intros _ ([|a pre] & post & Heq).
      * assert (String.prefix pat "" = true) as Hp'
          by (apply prefix_app; by exists post). congruence.
      * change ("" = String a (pre +:+ pat +:+ post)) in Heq. done.
    + rewrite substring_cons. destruct (String.prefix pat (String c s)) eqn:Hp; [done|].
      destruct (Drivers.str_find pat s <? 0)%Z eqn:Hneg.
      * intros _ [?|Hs]; [done|]. revert Hs. apply IH.
        destruct (str_find_range pat s) as [Hr|Hr]; [done|].
        apply Z.ltb_lt in Hneg. lia.
      * apply Z.ltb_ge in Hneg. lia.
  - intros Hn. destruct (str_find_range pat s) as [Hr|Hr]; [done|].
    by apply str_find_found in Hr.
Qed.

Lemma str_find_zero (pat s : string) :
  Drivers.str_find pat s = 0%Z ↔ String.prefix pat s = true.
Proof.
  destruct s as [|c s]; rewrite ?str_find_nil, ?str_find_cons.
  - by destruct (String.prefix pat "").
  - destruct (String.prefix pat (String c s)); [done|].
    destruct (str_find_range pat s) as [Hr|Hr].
    + rewrite Hr. simpl. split; [lia|done].
    + destruct (Drivers.str_find pat s <? 0)%Z; split; (lia || done).
Qed.

Lemma append_cons (c : ascii) (s t : string) : String c s +:+ t = String c (s +:+ t).
Proof. reflexivity. Qed.

Lemma append_nil_l (t : string) : "" +:+ t = t.
Proof. reflexivity. Qed.

Lemma str_from_app (pre s : string) (n : nat) :
  Drivers.str_from (String.length pre + n) (pre +:+ s) = Drivers.str_from n s.
Proof. induction pre as [|c pre IH]; [done|]. rewrite append_cons. simpl. apply IH. Qed.

(** The first GSM of a text is found where it stands. *)
Lemma str_find_GSM (pre post : string) :
  ¬ substring "GSM" (pre +:+ "GS") →
  Drivers.str_find "GSM" (pre +:+ "GSM" +:+ post) = Z.of_nat (String.length pre).
Proof.
  induction pre as [|c pre IH]; intros Hfirst.
  - rewrite append_nil_l. apply str_find_zero, prefix_app. by exists post.
  - rewrite append_cons, str_find_cons.
    rewrite append_cons in Hfirst.
    assert (¬ substring "GSM" (pre +:+ "GS")) as Hrest.
    { intros Hs. apply Hfirst. apply substring_cons. by right. }
    assert (String.prefix "GSM" (String c (pre +:+ "GSM" +:+ post)) = false) as ->.
    { apply not_true_is_false. intros Hp. apply Hfirst. apply substring_cons. left.
      destruct pre as [|a [|b pre]]; rewrite ?append_cons, ?append_nil_l in *.
      - rewrite !prefix_cons in Hp. rewrite !prefix_cons.
        destruct (Ascii.ascii_dec "G" c); [|done].
        destruct (Ascii.ascii_dec "S" "G") as [Heq|]; [discriminate Heq|discriminate Hp].
      - rewrite !prefix_cons in Hp. rewrite !prefix_cons.
        destruct (Ascii.ascii_dec "G" c); [|done].
        destruct (Ascii.ascii_dec "S" a); [|done].
        destruct (Ascii.ascii_dec "M" "G") as [Heq|]; [discriminate Heq|discriminate Hp].
      - rewrite !prefix_cons in Hp. rewrite !prefix_cons.
        destruct (Ascii.ascii_dec "G" c); [|done].
        destruct (Ascii.ascii_dec "S" a); [|done].
        destruct (Ascii.ascii_dec "M" b); [|discriminate Hp].
        apply prefix_app. by eexists. }
    rewrite (IH Hrest).
    destruct (Z.of_nat (String.length pre) <? 0)%Z eqn:Hneg;
      [apply Z.ltb_lt in Hneg; lia|].
    simpl. lia.
Qed.

Section CellInformation.
Import Drivers.
Variable int16 : string → option Z.

Local Abbreviation cell_information := (cell_information int16).

(** X24: [cell_information] assigns its result only when GSM occurs in
    the output at an index above zero.  It raises UnboundLocalError exactly
    when the output does not hold GSM at all or begins with it. *)
Theorem cell_information_unbound (info : string) :
  cell_information info = Raise UnboundLocalError
    ↔ ¬ substring "GSM" info ∨ ∃ rest, info = "GSM" +:+ rest.
Proof.
  unfold Drivers.cell_information. case_decide as Hpos.
  - split.
    + unfold index, parsed.
      set (data := str_split "," _).
      destruct (data !! 0) as [m|]; [|done]. destruct (data !! 1) as [n|]; [|done].
      destruct (data !! 2) as [l|]; [|done]. destruct (int16 l); [|done].
      destruct (data !! 3) as [c|]; [|done]. by destruct (int16 c).
    + intros [Hnone | Hprefix].
      * apply str_find_none in Hnone. lia.
      * apply prefix_app, str_find_zero in Hprefix. lia.
  - split; [|done]. intros _.
    destruct (str_find_range "GSM" info) as [Hr|Hr].
    + left. by apply str_find_none.
    + right. apply prefix_app, str_find_zero. lia.
Qed.

(** X25: on an output in which the first GSM stands after some text and
    is followed by two characters and then by at least four fields
    separated by commas, [cell_information] returns the first two fields
    as mcc and mnc and the third and fourth read as hexadecimal numbers as
    lac and cell_id. *)
Theorem cell_information_fields (pre post fields : string) (a b : ascii)
    (m n l c : string) (more : list string) (lac_value cell_value : Z) :
  pre ≠ "" → ¬ substring "GSM" (pre +:+ "GS") →
  str_split "," fields = m :: n :: l :: c :: more →
  int16 l = Some lac_value → int16 c = Some cell_value →
  cell_information (pre +:+ "GSM" +:+ String a (String b fields))
    = Return (CellInfo m n lac_value cell_value).
Proof.
  intros Hpre Hfirst Hsplit Hl Hc. unfold Drivers.cell_information.
  rewrite (str_find_GSM pre _ Hfirst).
  rewrite decide_True by (destruct pre; [done|simpl; lia]).
  replace (Z.to_nat (Z.of_nat (String.length pre) + 5)) with (String.length pre + 5) by lia.
  rewrite str_from_app.
  change (str_from 5 ("GSM" +:+ String a (String b fields))) with fields.
  rewrite Hsplit. unfold index, parsed. simpl. by rewrite Hl, Hc.
Qed.

(** X26: when GSM is found at an index above zero but fewer than two
    commas follow the five characters from its start, [cell_information]
    raises IndexError, whatever the fields hold. *)
Theorem cell_information_short (info : string) :
  (0 < str_find "GSM" info)%Z →
  str_count "," (str_from (Z.to_nat (str_find "GSM" info + 5)) info) < 2 →
  cell_information info = Raise IndexError.
Proof.
  intros Hpos Hcount. unfold Drivers.cell_information. rewrite decide_True by done.
  pose proof (str_split_length ","
                (str_from (Z.to_nat (str_find "GSM" info + 5)) info)) as Hlen.
  destruct (str_split "," _) as [|m [|n [|l more]]]; simpl in Hlen; try lia; done.
Qed.

End CellInformation.

(** * The further properties on concrete inputs *)

Lemma constructors_accept_valid_names_witness :
  ((DataSocket_init ["a"; "b"] 9000 (PyInt 47) (PyInt 47) (World ∅ ∅)).1 = Ok ()
     ↔ valid_codenames ["a"; "b"]) ∧
  ((DateDataSocket_init ["a"; "b"] 9000 (PyInt 47) (PyInt 47) (Single None) (World ∅ ∅)).1
     = Ok ()
     ↔ valid_codenames ["a"; "b"]
       ∧ ∃ ts, convert_timeouts ["a"; "b"] (Single (None : option number)) = Ok ts).
Proof.
  apply (constructors_accept_valid_names ["a"; "b"] 9000 _ _ _ (World ∅ ∅)).
  - reflexivity.
  - apply (bool_decide_unpack _). vm_compute. exact I.
Defined.

Lemma DataSocket_init_state_witness :
  ∃ d, DataSocket_init ["a"; "b"] 9000 (PyInt 47) (PyInt 47) (World ∅ ∅)
         = (Ok (), World (<[9000%Z := d]> ∅) ({[9000%Z]} ∪ ∅)) ∧
       type d = "data" ∧ codenames d = ["a"; "b"] ∧ timeouts d = None ∧
       ∀ name, data d !! name
               = if decide (name ∈ ["a"; "b"]) then Some (PyInt 47, PyInt 47) else None.
Proof.
  apply (DataSocket_init_state ["a"; "b"] 9000 (PyInt 47) (PyInt 47) (World ∅ ∅)).
  - apply (bool_decide_unpack _). vm_compute. exact I.
  - reflexivity.
  - apply (bool_decide_unpack _). vm_compute. exact I.
Defined.

Lemma DateDataSocket_init_state_witness :
  ∃ d tm, DateDataSocket_init ["temp"; "pressure"] 9001 (PyInt 0) (PyInt 47)
            (Several [Some (PyInt 5); None]) (World ∅ ∅)
            = (Ok (), World (<[9001%Z := d]> ∅) ({[9001%Z]} ∪ ∅)) ∧
       type d = "date" ∧ codenames d = ["temp"; "pressure"] ∧ timeouts d = Some tm ∧
       (∀ name, data d !! name
                = if decide (name ∈ ["temp"; "pressure"])
                  then Some (PyInt 0, PyInt 47) else None) ∧
       (∀ i name timeout, ["temp"; "pressure"] !! i = Some name →
          [Some (PyInt 5); None] !! i = Some timeout → tm !! name = Some timeout) ∧
       (∀ name, name ∉ ["temp"; "pressure"] → tm !! name = None).
Proof.
  apply (DateDataSocket_init_state ["temp"; "pressure"] 9001 (PyInt 0) (PyInt 47)
           [Some (PyInt 5); None] (World ∅ ∅)).
  - apply (bool_decide_unpack _). vm_compute. exact I.
  - reflexivity.
  - apply (bool_decide_unpack _). vm_compute. exact I.
  - reflexivity.
Defined.

Lemma DataSocket_init_rejected_witness :
  ∃ message d,
    DataSocket_init (["b"] ++ "a" :: ["a"]) 9000 (PyInt 47) (PyInt 47) (World ∅ ∅)
      = (Raise (ValueError message), World (<[9000%Z := d]> ∅) ∅) ∧
    (1 < list_count "a" (["b"] ++ "a" :: ["a"]) → message = unique_message "a") ∧
    type d = "data" ∧ codenames d = ["b"] ++ "a" :: ["a"] ∧
    ∀ name, data d !! name
            = if decide (name ∈ ["b"]) then Some (PyInt 47, PyInt 47) else None.
Proof.
  apply (DataSocket_init_rejected ["b"] "a" ["a"] 9000 (PyInt 47) (PyInt 47) (World ∅ ∅)).
  - reflexivity.
  - apply (bool_decide_unpack _). vm_compute. exact I.
  - apply (bool_decide_unpack _). vm_compute. exact I.
Defined.

Lemma bind_failure_leaves_entry_witness :
  let r := DataSocket_init ["a"] 9000 (PyInt 47) (PyInt 47) (World ∅ {[9000%Z]}) in
  r.1 = Raise SocketError ∧ is_Some (DATA r.2 !! 9000%Z) ∧ bound r.2 = {[9000%Z]} ∧
  ∀ cs' dx' dy' (arg' : timeouts_arg number),
    DataSocket_init cs' 9000 dx' dy' r.2 = (Raise (ValueError (port_message 9000)), r.2) ∧
    DateDataSocket_init cs' 9000 dx' dy' arg' r.2
      = (Raise (ValueError (port_message 9000)), r.2).
Proof.
  intros r.
  refine (bind_failure_leaves_entry ["a"] 9000 (PyInt 47) (PyInt 47) (Single None)
            [None] (World ∅ {[9000%Z]}) _ _ _ _ r _).
  - apply (bool_decide_unpack _). vm_compute. exact I.
  - reflexivity.
  - apply (bool_decide_unpack _). vm_compute. exact I.
  - reflexivity.
  - left. reflexivity.
Defined.

Lemma demo_constructed :
  constructed ["b"; "a"] 9000 (World ∅ ∅ : world number)
    (DataSocket_init ["b"; "a"] 9000 (PyInt 47) (PyInt 47) (World ∅ ∅)).2.
Proof. left. exists (PyInt 47), (PyInt 47). vm_compute. reflexivity. Defined.

Lemma second_construction_refused_witness :
  let w' := (DataSocket_init ["b"; "a"] 9000 (PyInt 47) (PyInt 47) (World ∅ ∅)).2 in
  DataSocket_init ["c"] 9000 (PyInt 0) (PyInt 0) w'
    = (Raise (ValueError (port_message 9000)), w') ∧
  DateDataSocket_init ["c"] 9000 (PyInt 0) (PyInt 0) (Single None) w'
    = (Raise (ValueError (port_message 9000)), w').
Proof.
  intros w'.
  apply (second_construction_refused ["b"; "a"] 9000 (World ∅ ∅) w' demo_constructed).
Defined.

Lemma stop_undoes_registration_witness :
  let w' := (DataSocket_init ["b"; "a"] 9000 (PyInt 47) (PyInt 47) (World ∅ ∅)).2 in
  (DataSocket_stop 9000 w').1 = Ok () ∧
  DateDataSocket_stop 9000 w' = DataSocket_stop 9000 w' ∧
  DATA (DataSocket_stop 9000 w').2 = ∅ ∧
  bound (DataSocket_stop 9000 w').2 = {[9000%Z]} ∪ ∅.
Proof.
  intros w'.
  apply (stop_undoes_registration ["b"; "a"] 9000 (World ∅ ∅) w' demo_constructed).
Defined.

Lemma use_after_stop_witness :
  let w : world number := World demo_DATA {[9000%Z; 9001%Z]} in
  let w' := (DataSocket_stop 9000 w).2 in
  DataSocket_stop 9000 w' = (Raise KeyError, w') ∧
  DataSocket_set_point 9000 "a" (PyInt 1, PyInt 2) w' = (Raise KeyError, w').
Proof.
  intros w w'.
  destruct (use_after_stop 9000 w demo_data eq_refl) as (Hstop & _ & Hset).
  split; [exact Hstop|]. exact (proj1 (Hset "a" (PyInt 1, PyInt 2) (PyInt 0) (PyInt 0))).
Defined.

Lemma replies_port_local_witness :
  let w : world number := World demo_DATA {[9000%Z; 9001%Z]} in
  handle (at_time (PyFloat 105)) (DATA (DataSocket_stop 9000 w).2) 9001 "raw"
    = handle (at_time (PyFloat 105)) (DATA w) 9001 "raw".
Proof.
  intros w.
  apply (replies_port_local (at_time (PyFloat 105)) 9001 9000 "raw" w).
  - lia.
  - right. left. reflexivity.
Defined.

Lemma replies_without_timeouts_ignore_clock_witness :
  handle (at_time (PyFloat 105)) demo_DATA 9000 "raw"
    = handle (at_time (PyFloat 999)) demo_DATA 9000 "raw".
Proof.
  apply (replies_without_timeouts_ignore_clock _ _ demo_DATA 9000 demo_data "raw").
  - reflexivity.
  - left. reflexivity.
Defined.

Lemma bulk_replies_made_of_single_values_witness :
  ∃ raws jsons,
    length raws = length (codenames demo_date) ∧
    length jsons = length (codenames demo_date) ∧
    (∀ k name, codenames demo_date !! k = Some name →
       ∃ raw json, raws !! k = Some raw ∧ jsons !! k = Some json ∧
         handle (at_time (at_time (PyFloat 106) k)) demo_DATA 9001 (name +:+ "#raw")
           = Ok raw ∧
         handle (at_time (at_time (PyFloat 106) k)) demo_DATA 9001 (name +:+ "#json")
           = Ok json) ∧
    handle (at_time (PyFloat 106)) demo_DATA 9001 "raw" = Ok (str_join ";" raws) ∧
    handle (at_time (PyFloat 106)) demo_DATA 9001 "json"
      = Ok ("[" +:+ str_join ", " jsons +:+ "]") ∧
    handle (at_time (PyFloat 106)) demo_DATA 9001 "raw_wn"
      = Ok (str_join ";" (zip_with (λ name raw, name +:+ ":" +:+ raw)
                            (codenames demo_date) raws)).
Proof.
  apply (bulk_replies_made_of_single_values (at_time (PyFloat 106)) demo_DATA 9001 demo_date).
  - reflexivity.
  - apply (bool_decide_unpack _). vm_compute. exact I.
Defined.

Lemma json_wn_entries_witness :
  ∃ (datacopy : gmap string (pyval number)) items,
    items ≡ₚ map_to_list datacopy ∧
    handle (at_time (PyFloat 106)) demo_DATA 9001 "json_wn"
      = Ok (json_dumps (PDict items)) ∧
    (∀ name, data demo_date !! name = None → datacopy !! name = None) ∧
    (∀ name p, data demo_date !! name = Some p → name ∉ codenames demo_date →
       datacopy !! name = Some (pyval_of_point p)) ∧
    (∀ k name p, codenames demo_date !! k = Some name → data demo_date !! name = Some p →
       ∃ stale, _old_data (at_time (PyFloat 106) k) demo_DATA 9001 name = Ok stale ∧
         datacopy !! name = Some (if stale then PStr OLD_DATA else pyval_of_point p)).
Proof.
  apply (json_wn_entries (at_time (PyFloat 106)) demo_DATA 9001 demo_date).
  - reflexivity.
  - apply (bool_decide_unpack _). vm_compute. exact I.
  - apply (bool_decide_unpack _). vm_compute. exact I.
Defined.

Lemma codenames_raw_splits_back_witness :
  ∃ reply, handle (at_time (PyFloat 106)) demo_DATA 9001 "codenames_raw" = Ok reply ∧
    (codenames demo_date ≠ [] → str_split "," reply = codenames demo_date) ∧
    (codenames demo_date = [] → reply = "" ∧ str_split "," reply = [""]).
Proof.
  apply (codenames_raw_splits_back (at_time (PyFloat 106)) demo_DATA 9001 demo_date).
  - reflexivity.
  - apply (bool_decide_unpack _). vm_compute. exact I.
Defined.

Lemma staleness_is_monotone_witness :
  _old_data (PyFloat 200) demo_DATA 9001 "temp" = Ok true.
Proof.
  apply (staleness_is_monotone (PyFloat 106) (PyFloat 200) demo_DATA 9001 "temp").
  - apply (proj1 (Z2Qc_inj_le 106 200)). lia.
  - reflexivity.
Defined.

Lemma set_point_now_is_fresh_witness :
  let w : world number := World demo_DATA {[9000%Z; 9001%Z]} in
  let w' := (DateDataSocket_set_point_now (PyFloat 300) 9001 "temp" (PyInt 22) w).2 in
  ∃ stale, _old_data (PyFloat 300) (DATA w') 9001 "temp" = Ok stale ∧
    (stale = true ↔
       ∃ timeout, (<["temp" := Some (PyInt 5)]> (<["pressure" := None]> ∅)
                     : gmap string (option number)) !! "temp" = Some (Some timeout)
                  ∧ (num_value timeout < 0)%Qc) ∧
    (stale = false → str_count "#" "temp" = 0 →
       handle (at_time (PyFloat 300)) (DATA w') 9001 "temp#raw"
         = Ok (format_point (PyFloat 300, PyInt 22))).
Proof.
  intros w w'.
  apply (set_point_now_is_fresh (PyFloat 300) (PyInt 22) 9001 "temp" w demo_date);
    reflexivity.
Defined.

Lemma set_point_composes_witness :
  let w : world number := World demo_DATA {[9000%Z; 9001%Z]} in
  (DataSocket_set_point 9000 "b" (PyInt 3, PyInt 4)
     (DataSocket_set_point 9000 "a" (PyInt 1, PyInt 2) w).2).2
    = (DataSocket_set_point 9000 "a" (PyInt 1, PyInt 2)
         (DataSocket_set_point 9000 "b" (PyInt 3, PyInt 4) w).2).2.
Proof.
  intros w.
  apply (set_point_composes 9000 9000 "a" "b" (PyInt 1, PyInt 2) (PyInt 3, PyInt 4) w).
  right. discriminate.
Defined.

Lemma publisher_without_codenames_witness :
  let r := DataSocket_init [] 9000 (PyInt 47) (PyInt 47) (World ∅ ∅) in
  r.1 = Ok () ∧
  handle (at_time (PyInt 0)) (DATA r.2) 9000 "raw" = Ok "" ∧
  handle (at_time (PyInt 0)) (DATA r.2) 9000 "raw_wn" = Ok "" ∧
  handle (at_time (PyInt 0)) (DATA r.2) 9000 "codenames_raw" = Ok "" ∧
  handle (at_time (PyInt 0)) (DATA r.2) 9000 "json" = Ok "[]" ∧
  handle (at_time (PyInt 0)) (DATA r.2) 9000 "codenames_json" = Ok "[]" ∧
  handle (at_time (PyInt 0)) (DATA r.2) 9000 "json_wn" = Ok "{}".
Proof.
  apply (publisher_without_codenames (at_time (PyInt 0)) 9000 (PyInt 47) (PyInt 47)
           (World ∅ ∅)).
  - reflexivity.
  - apply (bool_decide_unpack _). vm_compute. exact I.
Defined.

Lemma handle_without_entry_witness :
  handle (at_time (PyInt 0)) demo_DATA 9002 "json_wn" = Raise KeyError ∧
  handle (at_time (PyInt 0)) demo_DATA 9002 "a#raw" = Raise KeyError.
Proof.
  destruct (handle_without_entry (at_time (PyInt 0)) demo_DATA 9002 "json_wn" eq_refl)
    as (Hbulk & _ & _).
  destruct (handle_without_entry (at_time (PyInt 0)) demo_DATA 9002 "a#raw" eq_refl)
    as (_ & Hsingle & _).
  split.
  - apply Hbulk. apply (bool_decide_unpack _). vm_compute. exact I.
  - apply (Hsingle "a" "raw"); [reflexivity | reflexivity | by left].
Defined.

Lemma handle_unknown_type_witness :
  let D : gmap Z (dataset number) :=
    {[9000%Z := Dataset "live" ["a"] {["a" := (PyInt 1, PyInt 2)]} None]} in
  (∀ now code_name, _old_data now D 9000 code_name = Raise NotImplementedError) ∧
  (∀ command, command ∈ ["raw"; "json"; "raw_wn"; "json_wn"] →
     handle (at_time (PyInt 0)) D 9000 command = Raise NotImplementedError) ∧
  handle (at_time (PyInt 0)) D 9000 "codenames_raw" = Ok (str_join "," ["a"]).
Proof.
  intros D.
  apply (handle_unknown_type (at_time (PyInt 0)) D 9000
           (Dataset "live" ["a"] {["a" := (PyInt 1, PyInt 2)]} None) "a" []);
    [reflexivity | discriminate | discriminate | reflexivity].
Defined.

Lemma demo_log_events :
  Forall2 (λ line e, Drivers.event_of id demo_strptime line = Some e)
    (drop 1 demo_log) demo_events.
Proof. repeat constructor. Defined.

Lemma demo_events_sorted : StronglySorted Z.le (Drivers.timestamp <$> demo_events).
Proof. repeat constructor; simpl; lia. Defined.

Lemma read_events_prints_all_witness :
  Drivers.read_events id demo_strptime false demo_log 0
    = (Drivers.Return (Drivers.Events demo_events), 5%Z).
Proof.
  apply (proj2 (read_events_prints_all id demo_strptime false demo_log 0)
           "Date,Event,Source" (drop 1 demo_log) demo_events).
  - reflexivity.
  - discriminate.
  - exact demo_log_events.
Defined.

Lemma read_events_only_new_witness :
  Drivers.read_events id demo_strptime true demo_log 5
    = (Drivers.Return (Drivers.Events (drop 1 demo_events)), 5%Z).
Proof.
  apply (read_events_only_new id demo_strptime demo_log "Date,Event,Source"
           (drop 1 demo_log) demo_events 5).
  - reflexivity.
  - discriminate.
  - exact demo_log_events.
  - exact demo_events_sorted.
Defined.

Lemma read_events_repeats_last_witness :
  let first_call := Drivers.read_events id demo_strptime true demo_log 0 in
  let second_call := Drivers.read_events id demo_strptime true demo_log first_call.2 in
  first_call = (Drivers.Return (Drivers.Events demo_events), 5%Z) ∧
  second_call = (Drivers.Return (Drivers.Events (drop 1 demo_events)), 5%Z) ∧
  Drivers.Event 5 "Battery test" "Web" ∈ drop 1 demo_events.
Proof.
  apply (read_events_repeats_last id demo_strptime demo_log "Date,Event,Source"
           (drop 1 demo_log) demo_events (Drivers.Event 5 "Battery test" "Web") 0).
  - reflexivity.
  - exact demo_log_events.
  - exact demo_events_sorted.
  - reflexivity.
  - repeat constructor; simpl; lia.
Defined.

Lemma read_events_bad_line_witness :
  Drivers.read_events id demo_strptime true
    ("Date,Event,Source" :: drop 1 demo_log ++ "2024/01/01 00:00:05,truncated" :: []) 0
    = (Drivers.Raise Drivers.IndexError, 5%Z).
Proof.
  assert (true = true → StronglySorted Z.le (0%Z :: (Drivers.timestamp <$> demo_events)))
    as Hsorted.
  { intros _. constructor; [exact demo_events_sorted|]. repeat constructor; simpl; lia. }
  apply (proj2 (read_events_bad_line id demo_strptime true "Date,Event,Source"
                  (drop 1 demo_log) "2024/01/01 00:00:05,truncated" [] demo_events 0
                  demo_log_events Hsorted)
           "2024/01/01 00:00:05" ["truncated"] 5%Z).
  - reflexivity.
  - reflexivity.
  - simpl. lia.
  - right. simpl. lia.
Defined.

Lemma cell_information_unbound_witness :
  Drivers.cell_information demo_int16 "LTE,238,01,9C4,1A2B"
    = Drivers.Raise Drivers.UnboundLocalError ∧
  Drivers.cell_information demo_int16 "GSM, 238,01,9C4,1A2B"
    = Drivers.Raise Drivers.UnboundLocalError.
Proof.
  split.
  - apply (proj2 (cell_information_unbound demo_int16 "LTE,238,01,9C4,1A2B")).
    left. apply str_find_none. reflexivity.
  - apply (proj2 (cell_information_unbound demo_int16 "GSM, 238,01,9C4,1A2B")).
    right. by exists ", 238,01,9C4,1A2B".
Defined.

Lemma cell_information_fields_witness :
  Drivers.cell_information demo_int16 "Serving: GSM, 238,01,9C4,1A2B,17"
    = Drivers.Return (Drivers.CellInfo "238" "01" 2500 6699).
Proof.
  apply (cell_information_fields demo_int16 "Serving: " "" "238,01,9C4,1A2B,17"
           "," " " "238" "01" "9C4" "1A2B" ["17"] 2500 6699).
  - discriminate.
  - apply str_find_none. reflexivity.
  - reflexivity.
  - reflexivity.
  - reflexivity.
Defined.

Lemma cell_information_short_witness :
  Drivers.cell_information demo_int16 "Serving: GSM, 238,01"
    = Drivers.Raise Drivers.IndexError.
Proof.
  apply (cell_information_short demo_int16 "Serving: GSM, 238,01").
  - reflexivity.
  - simpl. lia.
Defined.
